(** * MRO cost estimator: the pricing core of [app.py] and [app_streamlit.py]

    The two front ends share one pricing core: [get_multiplier],
    [calculate_cost], the loop that fills [quote_items], and the pass that
    folds the line items into [part_totals] and [grand_total].

    Data is modelled as the Python code has it:
    - a pandas table is the list of its rows, in table order; a boolean-mask
      selection [df[mask]] is [filter]; [.values[0]] is the head of the
      selected rows and raises [IndexError] when there is none;
    - a Python [float] is an IEEE-754 binary64 number ([PrimFloat.float]);
    - a Python [int] is an unbounded integer ([Z]); mixed [float * int]
      arithmetic first converts the [int], which raises [OverflowError]
      when the integer is out of the binary64 range;
    - a [dict] (here a [defaultdict(float)]) is an association list in
      insertion order;
    - a raised exception is the [Raise] outcome of a small error monad. *)

From Stdlib Require Import ZArith List Ascii String Bool Floats Lia.
Import ListNotations.

Set Warnings "-inexact-float".

Set Implicit Arguments.

(** ** Python outcomes, numbers and containers *)

Module Py.

Inductive exn : Type :=
| ValueError (msg : string)
| IndexError
| OverflowError
| StopIteration.

Inductive outcome (A : Type) : Type :=
| Return (a : A)
| Raise (e : exn).

Arguments Return {A} a.
Arguments Raise {A} e.

Definition bind {A B : Type} (m : outcome A) (k : A -> outcome B) : outcome B :=
  match m with
  | Return a => k a
  | Raise e => Raise e
  end.

(** [float(n)] for a Python [int]: the nearest binary64 number, ties to
    even; [OverflowError] when that rounding leaves the finite range. *)
Definition float_of_int (n : Z) : outcome float :=
  match binary_normalize prec emax n 0 false with
  | S754_infinity _ => Raise OverflowError
  | sf => Return (SF2Prim sf)
  end.

(** [x * n] with [x] a [float] and [n] an [int]. *)
Definition mul_int (x : float) (n : Z) : outcome float :=
  bind (float_of_int n) (fun y => Return (x * y)%float).

(** [a.values[0]]: the first element, [IndexError] on an empty array. *)
Definition values0 {A : Type} (a : list A) : outcome A :=
  match a with
  | [] => Raise IndexError
  | x :: _ => Return x
  end.

(** [next(g)] on a generator that yields the elements of [a]. *)
Definition next {A : Type} (a : list A) : outcome A :=
  match a with
  | [] => Raise StopIteration
  | x :: _ => Return x
  end.

(** [df.empty] *)
Definition empty {A : Type} (a : list A) : bool :=
  match a with
  | [] => true
  | _ :: _ => false
  end.

(** A [defaultdict(float)] keyed by strings, in insertion order. *)
Definition dict : Type := list (string * float).

End Py.

Import Py.

Notation "x <- m ;; k" := (Py.bind m (fun x => k))
  (at level 61, m at next level, right associativity).
Notation "' p <- m ;; k" := (Py.bind m (fun p => k))
  (at level 61, p pattern, m at next level, right associativity).

(** ** The reference catalog *)

Module Procedures.
Record row : Type := Row {
  ProcedureCode : string;
  ProcedureName : string;
  BaseCostUSD : float
}.
End Procedures.

Module CostMultipliers.
Record row : Type := Row {
  PartNumber : string;
  ProcedureCode : string;
  Multiplier : float
}.
End CostMultipliers.

Module Parts.
(** [SeriesQty] is [None] for a blank cell ([pd.isna]). *)
Record row : Type := Row {
  EngineModel : string;
  AssemblyCode : string;
  PartNumber : string;
  Description : string;
  SeriesQty : option Z
}.
End Parts.

(** One entry of [quote_items]. *)
Module Item.
Record t : Type := Make {
  PartNumber : string;
  Description : string;
  ProcedureCode : string;
  Quantity : Z;
  BaseCost : float;
  Multiplier : float;
  Total : float
}.
End Item.

(** The row masks of the two lookups. *)
Definition multiplier_mask (part_number procedure_code : string)
    (r : CostMultipliers.row) : bool :=
  (CostMultipliers.PartNumber r =? part_number)%string
  && (CostMultipliers.ProcedureCode r =? procedure_code)%string.

Definition procedure_mask (procedure_code : string) (r : Procedures.row) : bool :=
  (Procedures.ProcedureCode r =? procedure_code)%string.

(** ** The pricing functions *)

Section Pricing.

Variable procedures_df : list Procedures.row.
Variable multipliers_df : list CostMultipliers.row.

(** [get_multiplier] is the same text in both front ends. *)
Definition get_multiplier (part_number procedure_code : string) : outcome float :=
  let row := filter (multiplier_mask part_number procedure_code) multipliers_df in
  if negb (Py.empty row)
  then r <- Py.values0 row ;; Return (CostMultipliers.Multiplier r)
  else Return 1%float.

(** [app.py]: the empty selection is checked and reported. *)
Definition app_calculate_cost (part_number procedure_code : string) (quantity : Z)
  : outcome (float * float * float) :=
  let proc_row := filter (procedure_mask procedure_code) procedures_df in
  if Py.empty proc_row
  then Raise (ValueError ("Procedure " ++ procedure_code ++ " not found."))
  else
    r <- Py.values0 proc_row ;;
    let base_cost := Procedures.BaseCostUSD r in
    multiplier <- get_multiplier part_number procedure_code ;;
    total <- Py.mul_int (base_cost * multiplier)%float quantity ;;
    Return (base_cost, multiplier, total).

(** [app_streamlit.py]: no check, [.values[0]] itself fails. *)
Definition web_calculate_cost (part_number procedure_code : string) (quantity : Z)
  : outcome (float * float * float) :=
  let proc_row := filter (procedure_mask procedure_code) procedures_df in
  r <- Py.values0 proc_row ;;
  let base_cost := Procedures.BaseCostUSD r in
  multiplier <- get_multiplier part_number procedure_code ;;
  total <- Py.mul_int (base_cost * multiplier)%float quantity ;;
  Return (base_cost, multiplier, total).

End Pricing.

(** ** Choosing the quantity of a part

    The answers of the user are inputs: [use_series] is the answer to
    "Use full series?" (the state of the check box in the web form) and
    [entered] is the quantity typed in (the value of the number input). *)

(** [app.py]: the question is asked only when [series_qty] is truthy. *)
Definition app_quantity (series_qty : option Z) (use_series : bool) (entered : Z) : Z :=
  match series_qty with
  | Some s =>
      if negb (s =? 0)%Z
      then (if use_series then s else entered)
      else entered
  | None => entered
  end.

(** [app_streamlit.py]: [series_qty if (use_series and series_qty) else ...]. *)
Definition web_quantity (series_qty : option Z) (use_series : bool) (entered : Z) : Z :=
  match series_qty with
  | Some s => if use_series && negb (s =? 0)%Z then s else entered
  | None => entered
  end.

(** ** Filling [quote_items] *)

(** What the user chose for one selected part. *)
Record selection : Type := Selection {
  part_row : Parts.row;
  use_series : bool;
  entered : Z;
  selected_procs : list string
}.

Section QuoteLoop.

Variable calculate_cost : string -> string -> Z -> outcome (float * float * float).
Variable choose_quantity : option Z -> bool -> Z -> Z.

(** The inner loop [for proc in selected_procs]. *)
Fixpoint append_procs (row : Parts.row) (quantity : Z) (procs : list string)
    (quote_items : list Item.t) : outcome (list Item.t) :=
  match procs with
  | [] => Return quote_items
  | proc :: rest =>
      '(base_cost, multiplier, total) <-
        calculate_cost (Parts.PartNumber row) proc quantity ;;
      append_procs row quantity rest
        (quote_items ++
           [Item.Make (Parts.PartNumber row) (Parts.Description row) proc
              quantity base_cost multiplier total])
  end.

(** The outer loop over the selected parts. *)
Fixpoint append_parts (selected_parts : list selection)
    (quote_items : list Item.t) : outcome (list Item.t) :=
  match selected_parts with
  | [] => Return quote_items
  | s :: rest =>
      let quantity :=
        choose_quantity (Parts.SeriesQty (part_row s)) (use_series s) (entered s) in
      items <- append_procs (part_row s) quantity (selected_procs s) quote_items ;;
      append_parts rest items
  end.

Definition fill_quote_items (selected_parts : list selection) : outcome (list Item.t) :=
  append_parts selected_parts [].

(** A selection tuple on which [calculate_cost] returns. *)
Definition priced (t : string * string * string * Z) : Prop :=
  let '(pn, _, proc, qty) := t in
  exists triple, calculate_cost pn proc qty = Return triple.

End QuoteLoop.

Definition app_quote_items procedures_df multipliers_df :=
  fill_quote_items (app_calculate_cost procedures_df multipliers_df) app_quantity.

Definition web_quote_items procedures_df multipliers_df :=
  fill_quote_items (web_calculate_cost procedures_df multipliers_df) web_quantity.

(** The selection sequence behind the two loops: one tuple
    (part number, description, procedure code, quantity) per chosen
    procedure of each selected part, in the order of the choices. *)
Definition selection_tuples (choose_quantity : option Z -> bool -> Z -> Z)
    (selected_parts : list selection) : list (string * string * string * Z) :=
  flat_map
    (fun s =>
       map (fun proc =>
              (Parts.PartNumber (part_row s), Parts.Description (part_row s), proc,
               choose_quantity (Parts.SeriesQty (part_row s)) (use_series s) (entered s)))
           (selected_procs s))
    selected_parts.

Definition item_tuple (i : Item.t) : string * string * string * Z :=
  (Item.PartNumber i, Item.Description i, Item.ProcedureCode i, Item.Quantity i).

(** ** Totals *)

Section Accumulate.

(** The pass is written once over the arithmetic it uses, so that it can
    be read with binary64 addition (the code) and with an exact one. *)
Context {num : Type} (add : num -> num -> num) (zero : num).
Context {item : Type} (part_number : item -> string) (total : item -> num).

(** [part_totals[k] += v] on a [defaultdict] whose default is [zero]. *)
Fixpoint add_at (d : list (string * num)) (k : string) (v : num) : list (string * num) :=
  match d with
  | [] => [(k, add zero v)]
  | (k', s) :: d' =>
      if (k' =? k)%string then (k', add s v) :: d'
      else (k', s) :: add_at d' k v
  end.

(** The body of [for item in quote_items] on the two accumulators. *)
Definition accumulate_step (acc : list (string * num) * num) (i : item)
  : list (string * num) * num :=
  let '(part_totals, grand_total) := acc in
  (add_at part_totals (part_number i) (total i), add grand_total (total i)).

Definition accumulate (quote_items : list item) : list (string * num) * num :=
  fold_left accumulate_step quote_items ([], zero).

(** [d.get(k)]: the value stored at a key, if any. *)
Fixpoint lookup (d : list (string * num)) (k : string) : option num :=
  match d with
  | [] => None
  | (k', s) :: d' => if (k' =? k)%string then Some s else lookup d' k
  end.

(** Left-to-right sum, from [zero]. *)
Definition sum_from_zero (l : list num) : num := fold_left add l zero.

(** The pass of [app_streamlit.py], which fills [part_totals] only. *)
Definition subtotals_pass (quote_items : list item) : list (string * num) :=
  fold_left (fun part_totals i => add_at part_totals (part_number i) (total i))
    quote_items [].

(** [df['Total'].sum()] on the frame of the line items. The summation is
    done by pandas: [series_sum] stands for its [Series.sum]. *)
Definition column_sum (series_sum : list num -> num) (quote_items : list item) : num :=
  series_sum (map total quote_items).

End Accumulate.

(** [app.py], step 5: both accumulators in one pass.  [grand_total] starts
    as the integer 0, which the first [+=] converts to [0.0]. *)
Definition app_totals (quote_items : list Item.t) : Py.dict * float :=
  accumulate PrimFloat.add 0%float Item.PartNumber Item.Total quote_items.

Definition part_totals (quote_items : list Item.t) : Py.dict :=
  fst (app_totals quote_items).

Definition grand_total (quote_items : list Item.t) : float :=
  snd (app_totals quote_items).

(** [app_streamlit.py], step 4: the subtotals by the same loop body, the
    grand total by [df['Total'].sum()]. *)
Definition web_part_totals (quote_items : list Item.t) : Py.dict :=
  subtotals_pass PrimFloat.add 0%float Item.PartNumber Item.Total quote_items.

Definition web_grand_total (series_sum : list float -> float)
    (quote_items : list Item.t) : float :=
  column_sum Item.Total series_sum quote_items.

(** The description shown with a subtotal:
    [next(i['Description'] for i in quote_items if i['PartNumber'] == part_num)]. *)
Definition subtotal_description (quote_items : list Item.t) (part_num : string)
  : outcome string :=
  Py.next (map Item.Description
             (filter (fun i => (Item.PartNumber i =? part_num)%string) quote_items)).

(** [for part_num, subtotal in part_totals.items()]: the lines shown under
    "subtotals per part", as (part number, description, subtotal). *)
Fixpoint subtotal_lines (quote_items : list Item.t) (totals : Py.dict)
  : outcome (list (string * string * float)) :=
  match totals with
  | [] => Return []
  | (part_num, subtotal) :: rest =>
      desc <- subtotal_description quote_items part_num ;;
      lines <- subtotal_lines quote_items rest ;;
      Return ((part_num, desc, subtotal) :: lines)
  end.

(** The part numbers of a list in the order of their first occurrence. *)
Fixpoint first_occurrences_from (seen : list string) (l : list string) : list string :=
  match l with
  | [] => []
  | x :: rest =>
      if existsb (String.eqb x) seen
      then first_occurrences_from seen rest
      else x :: first_occurrences_from (seen ++ [x]) rest
  end.

Definition first_occurrences (l : list string) : list string :=
  first_occurrences_from [] l.

(** ** The terminal front end ([app.py])

    The session reads its answers from standard input, modelled as the list
    of the lines still to be read: [input()] takes the first one and raises
    [EOFError] when there is none. What the session prints is not modelled.
    The string methods and the [int] parser of Python are taken as they
    come, in a record: nothing below depends on how they treat a given
    string. *)

Module Assemblies.
Record row : Type := Row {
  EngineModel : string;
  AssemblyCode : string
}.
End Assemblies.

Module Cli.

(** [str.strip], [str.lower], [str.split(",")] and [int(str)] ([None] for
    its [ValueError]). *)
Record str_ops : Type := StrOps {
  strip : string -> string;
  lower : string -> string;
  split_comma : string -> list string;
  int : string -> option Z
}.

(** What ends a session before its end. *)
Inductive stop : Type :=
| Raised (e : exn)
| InvalidLiteral (text : string)
| KeyError (label : nat)
| EOFError
| SystemExit (msg : string).

Inductive run (A : Type) : Type :=
| Done (a : A)
| Stop (s : stop).

Arguments Done {A} a.
Arguments Stop {A} s.

Definition of_outcome {A : Type} (m : outcome A) : run A :=
  match m with
  | Return a => Done a
  | Raise e => Stop (Raised e)
  end.

Definition run_bind {A B : Type} (m : run A) (k : A -> run B) : run B :=
  match m with
  | Done a => k a
  | Stop s => Stop s
  end.

(** A computation that reads lines. *)
Definition io (A : Type) : Type := list string -> run (A * list string).

Definition ret {A : Type} (a : A) : io A := fun stdin => Done (a, stdin).

Definition bind {A B : Type} (m : io A) (k : A -> io B) : io B :=
  fun stdin =>
    match m stdin with
    | Done (a, rest) => k a rest
    | Stop s => Stop s
    end.

Definition lift {A : Type} (m : run A) : io A :=
  fun stdin =>
    match m with
    | Done a => Done (a, stdin)
    | Stop s => Stop s
    end.

Definition input : io string :=
  fun stdin =>
    match stdin with
    | [] => Stop EOFError
    | line :: rest => Done (line, rest)
    end.

(** [l[i]] on a Python list: a negative index counts from the end. *)
Definition getitem {A : Type} (l : list A) (i : Z) : run A :=
  let n := Z.of_nat (List.length l) in
  let found :=
    if (0 <=? i)%Z then nth_error l (Z.to_nat i)
    else if (- n <=? i)%Z then nth_error l (Z.to_nat (n + i))
    else None in
  match found with
  | Some x => Done x
  | None => Stop (Raised IndexError)
  end.

(** [[l[i - 1] for i in indices]] *)
Fixpoint getitems {A : Type} (l : list A) (indices : list Z) : run (list A) :=
  match indices with
  | [] => Done []
  | i :: rest =>
      run_bind (getitem l (i - 1)) (fun x =>
      run_bind (getitems l rest) (fun xs => Done (x :: xs)))
  end.

(** A table with its row labels; [read_csv] numbers the rows from 0. *)
Definition frame (A : Type) : Type := list (nat * A).

Definition read_csv {A : Type} (rows : list A) : frame A :=
  combine (seq 0 (List.length rows)) rows.

(** [df[mask]] keeps the labels of the rows it keeps. *)
Definition select {A : Type} (mask : A -> bool) (df : frame A) : frame A :=
  filter (fun r => mask (snd r)) df.

(** [list(df.index)] *)
Definition index {A : Type} (df : frame A) : list nat := map fst df.

(** [df.loc[label]] *)
Definition loc {A : Type} (df : frame A) (label : nat) : run A :=
  match find (fun r => (fst r =? label)%nat) df with
  | Some r => Done (snd r)
  | None => Stop (KeyError label)
  end.

Section Session.

Variable ops : str_ops.

(** [1 <= idx <= len(options)] *)
Definition in_menu {A : Type} (options : list A) (idx : Z) : bool :=
  (1 <=? idx)%Z && (idx <=? Z.of_nat (List.length options))%Z.

(** [prompt_choice(options)], [multi=False]: one iteration of [while True]
    per line read; a line that [int] refuses or that is out of the menu is
    answered by "Invalid selection." and the next line is read. *)
Fixpoint prompt_choice {A : Type} (options : list A) (stdin : list string)
  : run (A * list string) :=
  match stdin with
  | [] => Stop EOFError
  | line :: rest =>
      let choice := strip ops line in
      match int ops choice with
      | Some idx =>
          if in_menu options idx
          then run_bind (getitem options (idx - 1)) (fun o => Done (o, rest))
          else prompt_choice options rest
      | None => prompt_choice options rest
      end
  end.

(** [[int(c.strip()) for c in choice.split(",") if c.strip()]]: [None] when
    some [int] raises [ValueError]. *)
Fixpoint ints (tokens : list string) : option (list Z) :=
  match tokens with
  | [] => Some []
  | c :: rest =>
      if negb (strip ops c =? "")%string
      then match int ops (strip ops c) with
           | Some i =>
               match ints rest with
               | Some l => Some (i :: l)
               | None => None
               end
           | None => None
           end
      else ints rest
  end.

(** [prompt_choice(options, multi=True)] *)
Fixpoint prompt_choice_multi {A : Type} (options : list A) (stdin : list string)
  : run (list A * list string) :=
  match stdin with
  | [] => Stop EOFError
  | line :: rest =>
      let choice := strip ops line in
      match ints (split_comma ops choice) with
      | Some indices =>
          if forallb (in_menu options) indices
          then run_bind (getitems options indices) (fun os => Done (os, rest))
          else prompt_choice_multi options rest
      | None => prompt_choice_multi options rest
      end
  end.

(** [int(input("Enter quantity: "))]: the [ValueError] is not caught. *)
Definition read_int : io Z :=
  bind input (fun line =>
    match int ops line with
    | Some n => ret n
    | None => lift (Stop (InvalidLiteral line))
    end).

(** Step 4, the quantity of a part. *)
Definition read_quantity (series_qty : option Z) : io Z :=
  match series_qty with
  | Some s =>
      if negb (s =? 0)%Z
      then bind input (fun answer =>
             let use_series := (lower ops (strip ops answer) =? "y")%string in
             if use_series then ret s else read_int)
      else read_int
  | None => read_int
  end.

Variable engine_models_df : list string.
Variable assemblies_df : list Assemblies.row.
Variable parts_df : list Parts.row.
Variable procedures_df : list Procedures.row.
Variable multipliers_df : list CostMultipliers.row.

(** The loop [for pidx in selected_procs]. *)
Fixpoint price_procs (row : Parts.row) (quantity : Z) (selected_procs : list nat)
    (quote_items : list Item.t) : run (list Item.t) :=
  match selected_procs with
  | [] => Done quote_items
  | pidx :: rest =>
      run_bind (loc (read_csv procedures_df) pidx) (fun proc_row =>
      let proc_code := Procedures.ProcedureCode proc_row in
      run_bind (of_outcome
                  (app_calculate_cost procedures_df multipliers_df
                     (Parts.PartNumber row) proc_code quantity))
        (fun triple =>
           let '(base_cost, multiplier, total) := triple in
           price_procs row quantity rest
             (quote_items ++
                [Item.Make (Parts.PartNumber row) (Parts.Description row) proc_code
                   quantity base_cost multiplier total])))
  end.

(** The loop [for idx in selected_parts]. *)
Fixpoint quote_parts (assembly_parts : frame Parts.row) (selected_parts : list nat)
    (quote_items : list Item.t) : io (list Item.t) :=
  match selected_parts with
  | [] => ret quote_items
  | idx :: rest =>
      bind (lift (loc assembly_parts idx)) (fun row =>
      bind (read_quantity (Parts.SeriesQty row)) (fun quantity =>
      bind (prompt_choice_multi (index (read_csv procedures_df))) (fun selected_procs =>
      bind (lift (price_procs row quantity selected_procs quote_items)) (fun items =>
      quote_parts assembly_parts rest items))))
  end.

Definition engine_mask (selected_engine : string) (r : Assemblies.row) : bool :=
  (Assemblies.EngineModel r =? selected_engine)%string.

Definition part_mask (selected_engine selected_assembly : string) (r : Parts.row)
  : bool :=
  (Parts.EngineModel r =? selected_engine)%string
  && (Parts.AssemblyCode r =? selected_assembly)%string.

(** Steps 1 to 4: from the first menu to the filled [quote_items]. *)
Definition session : io (list Item.t) :=
  bind (prompt_choice engine_models_df) (fun selected_engine =>
  let engine_assemblies := filter (engine_mask selected_engine) assemblies_df in
  if Py.empty engine_assemblies
  then lift (Stop (SystemExit ("No assemblies found for " ++ selected_engine)))
  else
    let assemblies :=
      first_occurrences (map Assemblies.AssemblyCode engine_assemblies) in
    bind (prompt_choice assemblies) (fun selected_assembly =>
    let assembly_parts :=
      select (part_mask selected_engine selected_assembly) (read_csv parts_df) in
    if Py.empty assembly_parts
    then lift (Stop (SystemExit ("No parts found for " ++ selected_engine ++ " - "
                                   ++ selected_assembly)))
    else
      bind (prompt_choice_multi (index assembly_parts)) (fun selected_parts =>
      quote_parts assembly_parts selected_parts []))).

End Session.

End Cli.

(** ** The web front end ([app_streamlit.py])

    The values of the widgets are inputs: for each selected part number,
    the state of the "use full series" check box, the value of the number
    input and the procedure codes of the multiselect. *)

Module Web.

Record choice : Type := Choice {
  part_number : string;
  use_series : bool;
  number : Z;
  procs : list string
}.

Section Form.

Variable procedures_df : list Procedures.row.
Variable multipliers_df : list CostMultipliers.row.

(** [part_options[part_options["PartNumber"] == pn].iloc[0]] *)
Definition part_row_of (part_options : list Parts.row) (pn : string)
  : outcome Parts.row :=
  Py.values0 (filter (fun r => (Parts.PartNumber r =? pn)%string) part_options).

(** The loop [for proc in selected_procs]. *)
Fixpoint form_procs (pn description : string) (qty : Z) (selected_procs : list string)
    (quote_items : list Item.t) : outcome (list Item.t) :=
  match selected_procs with
  | [] => Return quote_items
  | proc :: rest =>
      '(base_cost, multiplier, total) <-
        web_calculate_cost procedures_df multipliers_df pn proc qty ;;
      form_procs pn description qty rest
        (quote_items ++
           [Item.Make pn description proc qty base_cost multiplier total])
  end.

(** The loop [for pn in selected_parts]. *)
Fixpoint form_parts (part_options : list Parts.row) (selected_parts : list choice)
    (quote_items : list Item.t) : outcome (list Item.t) :=
  match selected_parts with
  | [] => Return quote_items
  | c :: rest =>
      row <- part_row_of part_options (part_number c) ;;
      let qty := web_quantity (Parts.SeriesQty row) (use_series c) (number c) in
      items <- form_procs (part_number c) (Parts.Description row) qty (procs c)
                 quote_items ;;
      form_parts part_options rest items
  end.

End Form.

End Web.

(** ** Vocabulary of the statements *)

(** A multiplier row is for the pair (part number, procedure code). *)
Definition multiplier_for (part_number procedure_code : string)
    (r : CostMultipliers.row) : Prop :=
  CostMultipliers.PartNumber r = part_number
  /\ CostMultipliers.ProcedureCode r = procedure_code.

(** A procedure row is the entry of a procedure code. *)
Definition procedure_for (procedure_code : string) (r : Procedures.row) : Prop :=
  Procedures.ProcedureCode r = procedure_code.

(** The procedure code has an entry in the Procedure table. *)
Definition has_procedure (procedures_df : list Procedures.row) (procedure_code : string)
  : Prop :=
  exists r, In r procedures_df /\ procedure_for procedure_code r.

(** A selection that [calculate_cost] can price: the procedure has an
    entry and the quantity converts to a [float]. *)
Definition priceable (pdf : list Procedures.row) (t : string * string * string * Z)
  : Prop :=
  let '(_, _, proc, qty) := t in
  has_procedure pdf proc /\ exists qf, float_of_int qty = Return qf.

(** [x] is the first element of [l] that satisfies [P]. *)
Definition first_such {A : Type} (P : A -> Prop) (l : list A) (x : A) : Prop :=
  exists before after,
    l = before ++ x :: after /\ Forall (fun y => ~ P y) before /\ P x.

(** [x] is the only element of [l] that satisfies [P]. *)
Definition only_such {A : Type} (P : A -> Prop) (l : list A) (x : A) : Prop :=
  exists before after,
    l = before ++ x :: after /\ Forall (fun y => ~ P y) (before ++ after) /\ P x.

(** A binary64 number that is neither infinite nor NaN, and whose sign bit
    is clear. *)
Definition finite_nonneg (x : float) : bool :=
  match Prim2SF x with
  | S754_zero false | S754_finite false _ _ => true
  | _ => false
  end.

(** A line item carries what [calculate_cost] returns for its own part
    number, procedure code and quantity. *)
Definition costed (calculate_cost : string -> string -> Z -> outcome (float * float * float))
    (i : Item.t) : Prop :=
  calculate_cost (Item.PartNumber i) (Item.ProcedureCode i) (Item.Quantity i)
  = Return (Item.BaseCost i, Item.Multiplier i, Item.Total i).

(** A line item priced at a given quantity: it records that quantity and
    carries what [calculate_cost] returns for it. *)
Definition costed_at
    (calculate_cost : string -> string -> Z -> outcome (float * float * float))
    (quantity : Z) (i : Item.t) : Prop :=
  Item.Quantity i = quantity
  /\ calculate_cost (Item.PartNumber i) (Item.ProcedureCode i) quantity
     = Return (Item.BaseCost i, Item.Multiplier i, Item.Total i).

(** The exception of the first selection tuple, in order, on which
    [calculate_cost] raises. *)
Fixpoint first_failure
    (calculate_cost : string -> string -> Z -> outcome (float * float * float))
    (tuples : list (string * string * string * Z)) : option exn :=
  match tuples with
  | [] => None
  | (pn, _, proc, qty) :: rest =>
      match calculate_cost pn proc qty with
      | Return _ => first_failure calculate_cost rest
      | Raise e => Some e
      end
  end.

(** A line that [prompt_choice] answers by "Invalid selection.". *)
Definition refused {A : Type} (ops : Cli.str_ops) (options : list A) (line : string)
  : Prop :=
  match Cli.int ops (Cli.strip ops line) with
  | Some idx => Cli.in_menu options idx = false
  | None => True
  end.

(** The same for [prompt_choice] with [multi=True]. *)
Definition refused_multi {A : Type} (ops : Cli.str_ops) (options : list A)
    (line : string) : Prop :=
  match Cli.ints ops (Cli.split_comma ops (Cli.strip ops line)) with
  | Some indices => forallb (Cli.in_menu options) indices = false
  | None => True
  end.

(** [o] is the option numbered [idx] in a menu (numbered from 1). *)
Definition numbered {A : Type} (options : list A) (idx : Z) (o : A) : Prop :=
  (1 <= idx <= Z.of_nat (List.length options))%Z
  /\ nth_error options (Z.to_nat (idx - 1)) = Some o.

(** A selection made of a row of the Parts table for the engine model and
    the assembly, and of procedure codes of the Procedure table. *)
Definition chosen_from (parts_df : list Parts.row) (procedures_df : list Procedures.row)
    (engine assembly : string) (s : selection) : Prop :=
  In (part_row s) parts_df
  /\ Parts.EngineModel (part_row s) = engine
  /\ Parts.AssemblyCode (part_row s) = assembly
  /\ Forall (has_procedure procedures_df) (selected_procs s).

(** The selection behind a choice of the web form: the part row it stands
    for is the first row of the options with the chosen part number. *)
Definition stands_for (part_options : list Parts.row) (c : Web.choice) (s : selection)
  : Prop :=
  first_such (fun r => Parts.PartNumber r = Web.part_number c) part_options (part_row s)
  /\ use_series s = Web.use_series c
  /\ entered s = Web.number c
  /\ selected_procs s = Web.procs c.

(** The ways a terminal session can stop once the tables are loaded. *)
Definition session_stop (s : Cli.stop) : Prop :=
  s = Cli.EOFError
  \/ (exists text, s = Cli.InvalidLiteral text)
  \/ (exists msg, s = Cli.SystemExit msg)
  \/ s = Cli.Raised OverflowError.

(** ** A small catalog for the examples *)

Module Sample.

Definition procedures_df : list Procedures.row :=
  [ Procedures.Row "R100" "Overhaul" 200%float;
    Procedures.Row "R200" "Inspection" 75%float ].

Definition multipliers_df : list CostMultipliers.row :=
  [ CostMultipliers.Row "P1" "R100" 1.5%float;
    CostMultipliers.Row "P2" "R200" 2%float;
    CostMultipliers.Row "P1" "R100" 3%float ].

(** Amounts at the far end of the binary64 range. *)
Definition huge_procedures_df : list Procedures.row :=
  [ Procedures.Row "R900" "Rebuild" 0x1p+600%float ].

Definition huge_multipliers_df : list CostMultipliers.row :=
  [ CostMultipliers.Row "P1" "R900" 0x1p+600%float ].

Definition overhaul : Procedures.row := Procedures.Row "R100" "Overhaul" 200%float.
Definition inspection : Procedures.row := Procedures.Row "R200" "Inspection" 75%float.

Definition priced_procedures_df : list Procedures.row :=
  [ Procedures.Row "R1" "Clean" 100.10%float;
    Procedures.Row "R2" "Coat" 200.20%float;
    Procedures.Row "R3" "Balance" 300.30%float ].

Definition blade : Parts.row := Parts.Row "CFM56" "HPT" "P2" "Blade set" (Some 12%Z).
Definition seal : Parts.row := Parts.Row "CFM56" "HPT" "P1" "Seal" None.

(** Stand-ins for the string methods on ASCII text, for the examples. *)
Definition is_space (a : Ascii.ascii) : bool :=
  let n := Ascii.nat_of_ascii a in
  (((9 <=? n) && (n <=? 13)) || ((28 <=? n) && (n <=? 32)))%nat.

Fixpoint lstrip (s : string) : string :=
  match s with
  | EmptyString => EmptyString
  | String a r => if is_space a then lstrip r else s
  end.

Fixpoint rstrip (s : string) : string :=
  match s with
  | EmptyString => EmptyString
  | String a r =>
      match rstrip r with
      | EmptyString => if is_space a then EmptyString else String a EmptyString
      | r' => String a r'
      end
  end.

Definition lower_ascii (a : Ascii.ascii) : Ascii.ascii :=
  let n := Ascii.nat_of_ascii a in
  if ((65 <=? n) && (n <=? 90))%nat then Ascii.ascii_of_nat (n + 32) else a.

Fixpoint lower (s : string) : string :=
  match s with
  | EmptyString => EmptyString
  | String a r => String (lower_ascii a) (lower r)
  end.

Fixpoint split_comma (s : string) : list string :=
  match s with
  | EmptyString => [EmptyString]
  | String a r =>
      if Ascii.eqb a ","%char then EmptyString :: split_comma r
      else match split_comma r with
           | h :: t => String a h :: t
           | [] => [String a EmptyString]
           end
  end.

Fixpoint digits (acc : Z) (s : string) : option Z :=
  match s with
  | EmptyString => Some acc
  | String a r =>
      let n := Ascii.nat_of_ascii a in
      if ((48 <=? n) && (n <=? 57))%nat
      then digits (10 * acc + Z.of_nat (n - 48)) r
      else None
  end.

Definition unsigned (s : string) : option Z :=
  match s with
  | EmptyString => None
  | _ => digits 0 s
  end.

Definition int (s : string) : option Z :=
  match rstrip (lstrip s) with
  | String "-"%char r => option_map Z.opp (unsigned r)
  | String "+"%char r => unsigned r
  | t => unsigned t
  end.

Definition ops : Cli.str_ops :=
  Cli.StrOps (fun s => rstrip (lstrip s)) lower split_comma int.

Definition engine_models_df : list string := ["CFM56"%string; "V2500"%string].

Definition assemblies_df : list Assemblies.row :=
  [ Assemblies.Row "CFM56" "HPT"; Assemblies.Row "CFM56" "LPT";
    Assemblies.Row "CFM56" "HPT" ].

Definition parts_df : list Parts.row :=
  [ Parts.Row "CFM56" "LPT" "P7" "Vane" None; seal; blade ].

(** One procedure for the seal, two for the blade set, one unit each. *)
Definition selected_parts : list selection :=
  [ Selection seal false 1 ["R1"%string];
    Selection blade false 1 ["R2"%string; "R3"%string] ].

Definition quote_items : list Item.t :=
  [ Item.Make "P1" "Seal" "R1" 1 100.10%float 1%float 100.10%float;
    Item.Make "P2" "Blade set" "R2" 1 200.20%float 1%float 200.20%float;
    Item.Make "P2" "Blade set" "R3" 1 300.30%float 1%float 300.30%float ].

(** The totals of [quote_items] in cents. *)
Definition cents (i : Item.t) : Z :=
  match Item.ProcedureCode i with
  | "R1"%string => 10010
  | "R2"%string => 20020
  | _ => 30030
  end.

End Sample.

(** * Properties *)

(** ** Lookups *)

Lemma multiplier_mask_true p c r :
  multiplier_mask p c r = true <-> multiplier_for p c r.
Proof.
  unfold multiplier_mask, multiplier_for.
  rewrite andb_true_iff, !String.eqb_eq. tauto.
Qed.

Lemma procedure_mask_true c r :
  procedure_mask c r = true <-> procedure_for c r.
Proof. unfold procedure_mask, procedure_for. apply String.eqb_eq. Qed.

Section FilterFacts.

Context {A : Type} (f : A -> bool) (P : A -> Prop).
Hypothesis f_spec : forall x, f x = true <-> P x.

Lemma filter_none l : Forall (fun y => ~ P y) l -> filter f l = [].
Proof.
  induction 1 as [|y l Hy _ IH]; simpl; [reflexivity|].
  destruct (f y) eqn:E; [|exact IH].
  apply f_spec in E. contradiction.
Qed.

Lemma filter_first before x after :
  Forall (fun y => ~ P y) before -> P x ->
  filter f (before ++ x :: after) = x :: filter f after.
Proof.
  intros Hb Hx. rewrite filter_app, (@filter_none before Hb). simpl.
  apply f_spec in Hx. now rewrite Hx.
Qed.

Lemma filter_some l x : In x l -> P x -> exists y rest, filter f l = y :: rest.
Proof.
  intros Hin Hx.
  destruct (filter f l) as [|y rest] eqn:E; [|eauto].
  assert (Hf : In x (filter f l)) by (apply filter_In; split; [assumption | now apply f_spec]).
  rewrite E in Hf. destruct Hf.
Qed.

Lemma filter_nil_none l : filter f l = [] -> Forall (fun y => ~ P y) l.
Proof.
  intros E. apply Forall_forall. intros y Hy HP.
  assert (Hf : In y (filter f l)) by (apply filter_In; split; [assumption | now apply f_spec]).
  rewrite E in Hf. destruct Hf.
Qed.

End FilterFacts.

Lemma get_multiplier_first mdf p c r :
  first_such (multiplier_for p c) mdf r ->
  get_multiplier mdf p c = Return (CostMultipliers.Multiplier r).
Proof.
  intros (before & after & -> & Hb & Hr). unfold get_multiplier.
  rewrite (@filter_first _ _ _ (multiplier_mask_true p c) before r after Hb Hr).
  reflexivity.
Qed.

Lemma get_multiplier_default mdf p c :
  Forall (fun r => ~ multiplier_for p c r) mdf ->
  get_multiplier mdf p c = Return 1%float.
Proof.
  intros H. unfold get_multiplier.
  now rewrite (@filter_none _ _ _ (multiplier_mask_true p c) mdf H).
Qed.

Lemma get_multiplier_returns mdf p c :
  exists m, get_multiplier mdf p c = Return m.
Proof.
  unfold get_multiplier.
  destruct (filter (multiplier_mask p c) mdf) as [|r rest]; simpl; eauto.
Qed.

Lemma only_such_first {A : Type} (P : A -> Prop) l (x : A) :
  only_such P l x -> first_such P l x.
Proof.
  intros (before & after & E & H & Hx). exists before, after.
  repeat split; try assumption. apply Forall_app in H. tauto.
Qed.

(** C2. Whatever the table and the pair: [get_multiplier] never raises; when
    exactly one row of the table is for the pair it returns the multiplier
    stored in that row; when no row is for the pair it returns exactly 1.0. *)
Theorem get_multiplier_unique_or_default mdf p c :
  (exists m, get_multiplier mdf p c = Return m)
  /\ (forall r, only_such (multiplier_for p c) mdf r ->
         get_multiplier mdf p c = Return (CostMultipliers.Multiplier r))
  /\ (Forall (fun r => ~ multiplier_for p c r) mdf ->
         get_multiplier mdf p c = Return 1%float).
Proof.
  split; [apply get_multiplier_returns|]. split.
  - intros r H. apply get_multiplier_first, only_such_first, H.
  - apply get_multiplier_default.
Qed.

Lemma get_multiplier_unique_or_default_witness :
  get_multiplier Sample.multipliers_df "P2" "R200" = Return 2%float
  /\ get_multiplier Sample.multipliers_df "P3" "R100" = Return 1%float.
Proof.
  split.
  - apply (proj1 (proj2 (get_multiplier_unique_or_default
                           Sample.multipliers_df "P2" "R200"))
             (CostMultipliers.Row "P2" "R200" 2%float)).
    exists [CostMultipliers.Row "P1" "R100" 1.5%float],
           [CostMultipliers.Row "P1" "R100" 3%float].
    split; [reflexivity|]. split; [|split; reflexivity].
    repeat constructor; intros [H _]; discriminate H.
  - apply (proj2 (proj2 (get_multiplier_unique_or_default
                           Sample.multipliers_df "P3" "R100"))).
    repeat constructor; intros [H _]; discriminate H.
Defined.

(** C8. When more than one row of the table is for the pair,
    [get_multiplier] returns the multiplier of the first of them in table
    order. *)
Theorem get_multiplier_duplicates_first mdf p c before r after later :
  mdf = before ++ r :: after ->
  Forall (fun x => ~ multiplier_for p c x) before ->
  multiplier_for p c r ->
  In later after -> multiplier_for p c later ->
  get_multiplier mdf p c = Return (CostMultipliers.Multiplier r).
Proof.
  intros E Hb Hr _ _. apply get_multiplier_first.
  exists before, after. auto.
Qed.

Lemma get_multiplier_duplicates_first_witness :
  get_multiplier Sample.multipliers_df "P1" "R100" = Return 1.5%float.
Proof.
  apply (@get_multiplier_duplicates_first Sample.multipliers_df "P1" "R100"
           [] (CostMultipliers.Row "P1" "R100" 1.5%float)
           [CostMultipliers.Row "P2" "R200" 2%float;
            CostMultipliers.Row "P1" "R100" 3%float]
           (CostMultipliers.Row "P1" "R100" 3%float)).
  - reflexivity.
  - constructor.
  - split; reflexivity.
  - right; left; reflexivity.
  - split; reflexivity.
Defined.

(** ** The cost of a line *)

Lemma float_of_int_cases n :
  (exists x, float_of_int n = Return x) \/ float_of_int n = Raise OverflowError.
Proof.
  unfold float_of_int.
  destruct (binary_normalize prec emax n 0 false); eauto.
Qed.

(** Integers below 2^53 in absolute value convert without error: the
    mantissa is shifted left to 53 bits and nothing is rounded. *)
Lemma digits2_pos_size m : digits2_pos m = Pos.size m.
Proof. induction m; simpl; congruence. Qed.

Lemma digits2_pos_le m n :
  (Zpos m < 2 ^ n)%Z -> (0 <= n)%Z -> (Zpos (digits2_pos m) <= n)%Z.
Proof.
  intros H Hn. rewrite digits2_pos_size.
  destruct (Z.le_gt_cases (Zpos (Pos.size m)) n) as [L|G]; [exact L|exfalso].
  assert (H0 : (2 ^ Zpos (Pos.size m) <= Zpos m~0)%Z).
  { rewrite <- Pos2Z.inj_pow. apply Pos2Z.pos_le_pos, Pos.size_le. }
  assert (H1 : (2 ^ (n + 1) <= 2 ^ Zpos (Pos.size m))%Z)
    by (apply Z.pow_le_mono_r; lia).
  rewrite Z.pow_add_r in H1 by lia. lia.
Qed.

Lemma digits2_pos_iter m n :
  digits2_pos (Pos.iter xO m n) = (digits2_pos m + n)%positive.
Proof.
  induction n using Pos.peano_ind.
  - simpl. lia.
  - rewrite Pos.iter_succ. simpl. rewrite IHn. lia.
Qed.

Lemma binary_round_aux_fit s mz ez :
  Zpos (digits2_pos mz) = 53%Z -> (-1074 <= ez <= 971)%Z ->
  binary_round_aux prec emax s (Zpos mz) ez loc_Exact = S754_finite s mz ez.
Proof.
  intros Hd He. unfold binary_round_aux, shr_fexp, fexp, emin, prec, emax.
  cbn [Zdigits2 shr_record_of_loc]. rewrite Hd.
  replace (Z.max (53 + ez - 53) (3 - 1024 - 53) - ez)%Z with 0%Z by lia.
  cbn [shr shr_m loc_of_shr_record round_nearest_even Zdigits2]. rewrite Hd.
  replace (Z.max (53 + ez - 53) (3 - 1024 - 53) - ez)%Z with 0%Z by lia.
  cbn [shr shr_m].
  destruct (Z.leb_spec ez (1024 - 53)); [reflexivity|lia].
Qed.

Lemma binary_round_small s m :
  (Zpos m < 2 ^ 53)%Z ->
  exists mz ez, binary_round prec emax s m 0 = S754_finite s mz ez.
Proof.
  intros H. pose proof (@digits2_pos_le m 53 H ltac:(lia)) as Hd.
  unfold binary_round, shl_align, fexp, emin, prec, emax.
  pose proof (Pos2Z.is_pos (digits2_pos m)).
  replace (Z.max (Zpos (digits2_pos m) + 0 - 53) (3 - 1024 - 53) - 0)%Z
    with (Zpos (digits2_pos m) - 53)%Z by lia.
  replace (Z.max (Zpos (digits2_pos m) + 0 - 53) (3 - 1024 - 53))%Z
    with (Zpos (digits2_pos m) - 53)%Z by lia.
  destruct (Zpos (digits2_pos m) - 53)%Z as [|p|p] eqn:E; try lia.
  - eexists _, _. apply binary_round_aux_fit; lia.
  - eexists _, _. apply binary_round_aux_fit; [|lia].
    rewrite digits2_pos_iter. lia.
Qed.

Lemma float_of_int_small n :
  (Z.abs n < 2 ^ 53)%Z -> exists x, float_of_int n = Return x.
Proof.
  intros H. unfold float_of_int, binary_normalize.
  destruct n as [|m|m]; [eexists; reflexivity| |].
  - destruct (@binary_round_small false m H) as (mz & ez & ->). eauto.
  - destruct (@binary_round_small true m H) as (mz & ez & ->). eauto.
Qed.

Lemma not_has_procedure pdf c :
  ~ has_procedure pdf c <-> Forall (fun r => ~ procedure_for c r) pdf.
Proof.
  unfold has_procedure. rewrite Forall_forall. split.
  - intros H r Hin Hr. apply H. eauto.
  - intros H (r & Hin & Hr). exact (H r Hin Hr).
Qed.

Lemma has_procedure_first pdf c :
  has_procedure pdf c -> exists r, first_such (procedure_for c) pdf r.
Proof.
  intros (x & Hin & Hx).
  induction pdf as [|y pdf IH]; [destruct Hin|].
  destruct (procedure_mask c y) eqn:E.
  - exists y, [], pdf. repeat split; [constructor | now apply procedure_mask_true].
  - assert (Hy : ~ procedure_for c y).
    { intros H. apply procedure_mask_true in H. congruence. }
    destruct Hin as [-> | Hin]; [contradiction|].
    destruct (IH Hin) as (r & before & after & -> & Hb & Hr).
    exists r, (y :: before), after. repeat split; auto.
Qed.

Lemma has_procedure_by_mask pdf c :
  existsb (procedure_mask c) pdf = true -> has_procedure pdf c.
Proof.
  intros H. apply existsb_exists in H. destruct H as (r & Hin & Hr).
  exists r. split; [exact Hin | now apply procedure_mask_true].
Qed.

Lemma first_such_has_procedure pdf c r :
  first_such (procedure_for c) pdf r -> has_procedure pdf c.
Proof.
  intros (before & after & -> & _ & Hr). exists r. split; [|exact Hr].
  apply in_or_app. right. now left.
Qed.

(** Both front ends, once the first row of the procedure is known. *)
Lemma calculate_cost_first pdf mdf p c q r :
  first_such (procedure_for c) pdf r ->
  let priced :=
    multiplier <- get_multiplier mdf p c ;;
    total <- Py.mul_int (Procedures.BaseCostUSD r * multiplier)%float q ;;
    Return (Procedures.BaseCostUSD r, multiplier, total) in
  app_calculate_cost pdf mdf p c q = priced
  /\ web_calculate_cost pdf mdf p c q = priced.
Proof.
  intros (before & after & -> & Hb & Hr). simpl.
  unfold app_calculate_cost, web_calculate_cost.
  rewrite (@filter_first _ _ _ (procedure_mask_true c) before r after Hb Hr).
  split; reflexivity.
Qed.

Lemma calculate_cost_absent pdf mdf p c q :
  ~ has_procedure pdf c ->
  app_calculate_cost pdf mdf p c q
  = Raise (ValueError ("Procedure " ++ c ++ " not found."))
  /\ web_calculate_cost pdf mdf p c q = Raise IndexError.
Proof.
  intros H. apply not_has_procedure in H.
  unfold app_calculate_cost, web_calculate_cost.
  rewrite (@filter_none _ _ _ (procedure_mask_true c) pdf H).
  split; reflexivity.
Qed.

(** What both front ends do for a procedure that has an entry: the triple
    when the quantity converts to a [float], [OverflowError] otherwise. *)
Lemma calculate_cost_present pdf mdf p c q :
  has_procedure pdf c ->
  exists r m,
    first_such (procedure_for c) pdf r
    /\ get_multiplier mdf p c = Return m
    /\ (forall qf, float_of_int q = Return qf ->
          let triple :=
            (Procedures.BaseCostUSD r, m, (Procedures.BaseCostUSD r * m * qf)%float) in
          app_calculate_cost pdf mdf p c q = Return triple
          /\ web_calculate_cost pdf mdf p c q = Return triple)
    /\ (float_of_int q = Raise OverflowError ->
          app_calculate_cost pdf mdf p c q = Raise OverflowError
          /\ web_calculate_cost pdf mdf p c q = Raise OverflowError).
Proof.
  intros H. destruct (has_procedure_first H) as (r & Hr).
  destruct (get_multiplier_returns mdf p c) as (m & Hm).
  exists r, m. split; [exact Hr|]. split; [exact Hm|].
  destruct (calculate_cost_first mdf p q Hr) as [-> ->].
  rewrite Hm. unfold Py.mul_int. simpl.
  split; [intros qf Hq | intros Hq]; rewrite Hq; split; reflexivity.
Qed.

Lemma mul_zero_finite_nonneg x :
  finite_nonneg x = true -> (x * 0)%float = 0%float.
Proof.
  unfold finite_nonneg. intros H. apply Prim2SF_inj. rewrite mul_spec.
  destruct (Prim2SF x) as [[|]|s|  |[|] m e]; try discriminate H; reflexivity.
Qed.

Lemma sample_has_R100 : has_procedure Sample.procedures_df "R100".
Proof. exists Sample.overhaul. split; [now left | reflexivity]. Qed.

Lemma sample_has_R200 : has_procedure Sample.procedures_df "R200".
Proof. exists Sample.inspection. split; [right; now left | reflexivity]. Qed.

Lemma sample_only_R200 :
  only_such (procedure_for "R200") Sample.procedures_df Sample.inspection.
Proof.
  exists [Sample.overhaul], []. split; [reflexivity|]. split; [|reflexivity].
  repeat constructor. intros H. discriminate H.
Qed.

Lemma sample_only_R100 :
  only_such (procedure_for "R100") Sample.procedures_df Sample.overhaul.
Proof.
  exists [], [Sample.inspection]. split; [reflexivity|]. split; [|reflexivity].
  repeat constructor. intros H. discriminate H.
Qed.

(** C1, as amended. For a procedure code with exactly one row in the
    Procedure table and a positive quantity that converts to a [float],
    [calculate_cost] (in both front ends) returns the triple made of the
    BaseCostUSD of that row, the result of [get_multiplier], and
    base cost x multiplier x quantity, multiplied left to right in binary64. *)
Theorem calculate_cost_line pdf mdf p c q r qf :
  only_such (procedure_for c) pdf r ->
  (0 < q)%Z ->
  float_of_int q = Return qf ->
  exists m,
    get_multiplier mdf p c = Return m
    /\ app_calculate_cost pdf mdf p c q
       = Return (Procedures.BaseCostUSD r, m, (Procedures.BaseCostUSD r * m * qf)%float)
    /\ web_calculate_cost pdf mdf p c q
       = Return (Procedures.BaseCostUSD r, m, (Procedures.BaseCostUSD r * m * qf)%float).
Proof.
  intros Hr _ Hq. apply only_such_first in Hr.
  destruct (get_multiplier_returns mdf p c) as (m & Hm). exists m.
  split; [exact Hm|].
  destruct (calculate_cost_first mdf p q Hr) as [-> ->].
  rewrite Hm. unfold Py.mul_int. simpl. rewrite Hq. split; reflexivity.
Qed.

Lemma calculate_cost_line_witness :
  exists m,
    get_multiplier Sample.multipliers_df "P2" "R200" = Return m
    /\ app_calculate_cost Sample.procedures_df Sample.multipliers_df "P2" "R200" 3
       = Return (75%float, m, (75 * m * 3)%float)
    /\ web_calculate_cost Sample.procedures_df Sample.multipliers_df "P2" "R200" 3
       = Return (75%float, m, (75 * m * 3)%float).
Proof.
  apply (@calculate_cost_line Sample.procedures_df Sample.multipliers_df
           "P2" "R200" 3%Z Sample.inspection 3%float).
  - exact sample_only_R200.
  - lia.
  - vm_compute. reflexivity.
Defined.

(** C1 as stated fails: the code has an entry for the procedure, the
    quantity is a positive integer, and no triple is returned. *)
Lemma calculate_cost_line_overflow :
  only_such (procedure_for "R100") Sample.procedures_df Sample.overhaul
  /\ (0 < 2 ^ 1024)%Z
  /\ app_calculate_cost Sample.procedures_df Sample.multipliers_df "P1" "R100" (2 ^ 1024)
     = Raise OverflowError
  /\ web_calculate_cost Sample.procedures_df Sample.multipliers_df "P1" "R100" (2 ^ 1024)
     = Raise OverflowError.
Proof.
  split; [exact sample_only_R100|]. split; [reflexivity|].
  split; vm_compute; reflexivity.
Qed.

(** C4, as amended. [calculate_cost] reports a missing procedure exactly
    when the procedure code has no entry in the Procedure table:
    [ValueError] with the "not found" message in [app.py], the [IndexError]
    of the empty selection in [app_streamlit.py]. For a procedure code that
    has an entry it never fails that way, and it does not fail at all when
    the quantity converts to a [float]. *)
Theorem calculate_cost_not_found pdf mdf p c q :
  (~ has_procedure pdf c ->
     app_calculate_cost pdf mdf p c q
     = Raise (ValueError ("Procedure " ++ c ++ " not found."))
     /\ web_calculate_cost pdf mdf p c q = Raise IndexError)
  /\ ((exists msg, app_calculate_cost pdf mdf p c q = Raise (ValueError msg))
      \/ web_calculate_cost pdf mdf p c q = Raise IndexError ->
      ~ has_procedure pdf c)
  /\ (has_procedure pdf c ->
      forall qf, float_of_int q = Return qf ->
      exists triple,
        app_calculate_cost pdf mdf p c q = Return triple
        /\ web_calculate_cost pdf mdf p c q = Return triple).
Proof.
  split; [apply calculate_cost_absent|]. split.
  - intros Hfail Hhas.
    destruct (calculate_cost_present mdf p q Hhas) as (r & m & _ & _ & Hok & Hov).
    destruct (float_of_int_cases q) as [(qf & Hq) | Hq].
    + destruct (Hok qf Hq) as [Ha Hw]. rewrite Ha, Hw in Hfail.
      destruct Hfail as [(msg & H) | H]; discriminate H.
    + destruct (Hov Hq) as [Ha Hw]. rewrite Ha, Hw in Hfail.
      destruct Hfail as [(msg & H) | H]; discriminate H.
  - intros Hhas qf Hq.
    destruct (calculate_cost_present mdf p q Hhas) as (r & m & _ & _ & Hok & _).
    eexists. exact (Hok qf Hq).
Qed.

Lemma calculate_cost_not_found_witness :
  (app_calculate_cost Sample.procedures_df Sample.multipliers_df "P1" "R999" 1
   = Raise (ValueError "Procedure R999 not found.")
   /\ web_calculate_cost Sample.procedures_df Sample.multipliers_df "P1" "R999" 1
      = Raise IndexError)
  /\ (exists triple,
        app_calculate_cost Sample.procedures_df Sample.multipliers_df "P1" "R100" 2
        = Return triple
        /\ web_calculate_cost Sample.procedures_df Sample.multipliers_df "P1" "R100" 2
           = Return triple).
Proof.
  split.
  - apply (proj1 (calculate_cost_not_found
                    Sample.procedures_df Sample.multipliers_df "P1" "R999" 1)).
    apply not_has_procedure. repeat constructor; intros H; discriminate H.
  - apply (proj2 (proj2 (calculate_cost_not_found
                           Sample.procedures_df Sample.multipliers_df "P1" "R100" 2))
             sample_has_R100 2%float).
    vm_compute. reflexivity.
Defined.

(** C4 as stated fails: the procedure code has an entry and the call
    still fails, in both front ends. *)
Lemma calculate_cost_present_fails :
  has_procedure Sample.procedures_df "R200"
  /\ app_calculate_cost Sample.procedures_df Sample.multipliers_df "P2" "R200" (10 ^ 400)
     = Raise OverflowError
  /\ web_calculate_cost Sample.procedures_df Sample.multipliers_df "P2" "R200" (10 ^ 400)
     = Raise OverflowError.
Proof.
  split; [exact sample_has_R200|]. split; vm_compute; reflexivity.
Qed.

(** C9. For a procedure code that has an entry in the Procedure table, the
    [calculate_cost] of [app.py] and that of [app_streamlit.py] have the
    same outcome on the same tables, part number and quantity: the same
    triple whenever the quantity converts to a [float]. *)
Theorem calculate_cost_front_ends_agree pdf mdf p c q :
  has_procedure pdf c ->
  app_calculate_cost pdf mdf p c q = web_calculate_cost pdf mdf p c q
  /\ (forall qf, float_of_int q = Return qf ->
      exists triple,
        app_calculate_cost pdf mdf p c q = Return triple
        /\ web_calculate_cost pdf mdf p c q = Return triple).
Proof.
  intros Hhas.
  destruct (calculate_cost_present mdf p q Hhas) as (r & m & Hr & _ & Hok & _).
  split.
  - destruct (calculate_cost_first mdf p q Hr) as [-> ->]. reflexivity.
  - intros qf Hq. eexists. exact (Hok qf Hq).
Qed.

Lemma calculate_cost_front_ends_agree_witness :
  app_calculate_cost Sample.procedures_df Sample.multipliers_df "P1" "R100" 2
  = web_calculate_cost Sample.procedures_df Sample.multipliers_df "P1" "R100" 2
  /\ (forall qf, float_of_int 2 = Return qf ->
      exists triple,
        app_calculate_cost Sample.procedures_df Sample.multipliers_df "P1" "R100" 2
        = Return triple
        /\ web_calculate_cost Sample.procedures_df Sample.multipliers_df "P1" "R100" 2
           = Return triple).
Proof.
  apply (@calculate_cost_front_ends_agree
           Sample.procedures_df Sample.multipliers_df "P1" "R100" 2%Z).
  exact sample_has_R100.
Defined.

(** C10, as amended. [calculate_cost] checks no sign: for a procedure code
    that has an entry and a quantity that is zero or negative and converts
    to a [float], both front ends return (base cost, multiplier,
    base cost x multiplier x quantity) without raising. With quantity 0 the
    total is 0.0 whenever base cost x multiplier is finite and not
    negative. *)
Theorem calculate_cost_nonpositive pdf mdf p c q qf :
  has_procedure pdf c ->
  (q <= 0)%Z ->
  float_of_int q = Return qf ->
  exists r m,
    first_such (procedure_for c) pdf r
    /\ get_multiplier mdf p c = Return m
    /\ app_calculate_cost pdf mdf p c q
       = Return (Procedures.BaseCostUSD r, m, (Procedures.BaseCostUSD r * m * qf)%float)
    /\ web_calculate_cost pdf mdf p c q
       = Return (Procedures.BaseCostUSD r, m, (Procedures.BaseCostUSD r * m * qf)%float)
    /\ (q = 0%Z ->
        finite_nonneg (Procedures.BaseCostUSD r * m)%float = true ->
        (Procedures.BaseCostUSD r * m * qf)%float = 0%float).
Proof.
  intros Hhas _ Hq.
  destruct (calculate_cost_present mdf p q Hhas) as (r & m & Hr & Hm & Hok & _).
  exists r, m. destruct (Hok qf Hq) as [Ha Hw].
  repeat (split; [assumption|]).
  intros -> Hfin. vm_compute in Hq. injection Hq as <-.
  now apply mul_zero_finite_nonneg.
Qed.

Lemma calculate_cost_nonpositive_witness :
  exists r m,
    first_such (procedure_for "R100") Sample.procedures_df r
    /\ get_multiplier Sample.multipliers_df "P1" "R100" = Return m
    /\ app_calculate_cost Sample.procedures_df Sample.multipliers_df "P1" "R100" 0
       = Return (Procedures.BaseCostUSD r, m, (Procedures.BaseCostUSD r * m * 0)%float)
    /\ web_calculate_cost Sample.procedures_df Sample.multipliers_df "P1" "R100" 0
       = Return (Procedures.BaseCostUSD r, m, (Procedures.BaseCostUSD r * m * 0)%float)
    /\ (0%Z = 0%Z ->
        finite_nonneg (Procedures.BaseCostUSD r * m)%float = true ->
        (Procedures.BaseCostUSD r * m * 0)%float = 0%float).
Proof.
  apply (@calculate_cost_nonpositive
           Sample.procedures_df Sample.multipliers_df "P1" "R100" 0%Z 0%float).
  - exact sample_has_R100.
  - lia.
  - vm_compute. reflexivity.
Defined.

(** C10 as stated fails twice: a negative quantity out of the binary64
    range raises, and quantity 0 does not give total 0.0 when
    base cost x multiplier overflows to infinity. *)
Lemma calculate_cost_nonpositive_fails :
  (has_procedure Sample.procedures_df "R100"
   /\ (- 2 ^ 1024 <= 0)%Z
   /\ app_calculate_cost Sample.procedures_df Sample.multipliers_df "P1" "R100" (- 2 ^ 1024)
      = Raise OverflowError
   /\ web_calculate_cost Sample.procedures_df Sample.multipliers_df "P1" "R100" (- 2 ^ 1024)
      = Raise OverflowError)
  /\ (app_calculate_cost Sample.huge_procedures_df Sample.huge_multipliers_df "P1" "R900" 0
      = Return (0x1p+600, 0x1p+600, nan)%float
      /\ nan <> 0%float).
Proof.
  split.
  - split; [exact sample_has_R100|]. split; [discriminate|].
    split; vm_compute; reflexivity.
  - split; [vm_compute; reflexivity|].
    intros H. apply (f_equal Prim2SF) in H. vm_compute in H. discriminate H.
Qed.

(** ** The quantity of a part and the quote loop *)

Lemma bind_Return {A : Type} (m : outcome A) : Py.bind m Return = m.
Proof. destruct m; reflexivity. Qed.

Lemma web_quantity_app_quantity series_qty use_s ent :
  web_quantity series_qty use_s ent = app_quantity series_qty use_s ent.
Proof.
  destruct series_qty as [s|]; simpl; [|reflexivity].
  destruct use_s, (s =? 0)%Z; reflexivity.
Qed.

Section QuoteLoopFacts.

Variable calculate_cost : string -> string -> Z -> outcome (float * float * float).
Variable choose_quantity : option Z -> bool -> Z -> Z.

Lemma append_procs_tuples row qty procs :
  forall quote_items items,
    append_procs calculate_cost row qty procs quote_items = Return items ->
    exists new,
      items = quote_items ++ new
      /\ map item_tuple new
         = map (fun proc => (Parts.PartNumber row, Parts.Description row, proc, qty))
             procs.
Proof.
  induction procs as [|proc rest IH]; intros acc items H; simpl in H.
  - injection H as <-. exists []. now rewrite app_nil_r.
  - destruct (calculate_cost (Parts.PartNumber row) proc qty)
      as [[[base_cost multiplier] total]|e]; simpl in H; [|discriminate H].
    apply IH in H. destruct H as (new & -> & Hnew).
    eexists (_ :: new). rewrite <- app_assoc. split; [reflexivity|].
    simpl. now f_equal.
Qed.

Lemma append_parts_tuples selected_parts :
  forall quote_items items,
    append_parts calculate_cost choose_quantity selected_parts quote_items
    = Return items ->
    exists new,
      items = quote_items ++ new
      /\ map item_tuple new = selection_tuples choose_quantity selected_parts.
Proof.
  induction selected_parts as [|s rest IH]; intros acc items H; simpl in H.
  - injection H as <-. exists []. now rewrite app_nil_r.
  - destruct (append_procs calculate_cost (part_row s) _ (selected_procs s) acc)
      as [mid|e] eqn:E; simpl in H; [|discriminate H].
    apply append_procs_tuples in E. destruct E as (new1 & -> & H1).
    apply IH in H. destruct H as (new2 & -> & H2).
    exists (new1 ++ new2). rewrite <- app_assoc. split; [reflexivity|].
    simpl. now rewrite map_app, H1, H2.
Qed.

Lemma append_procs_returns row qty procs :
  Forall (priced calculate_cost)
    (map (fun proc => (Parts.PartNumber row, Parts.Description row, proc, qty)) procs) ->
  forall quote_items,
    exists items, append_procs calculate_cost row qty procs quote_items = Return items.
Proof.
  induction procs as [|proc rest IH]; intros H acc; simpl.
  - eauto.
  - simpl in H. inversion H as [|t ts Ht Hrest]; subst.
    destruct Ht as (triple & Ht). rewrite Ht. destruct triple as [[base_cost multiplier] total]. simpl.
    apply IH, Hrest.
Qed.

Lemma append_parts_returns selected_parts :
  Forall (priced calculate_cost) (selection_tuples choose_quantity selected_parts) ->
  forall quote_items,
    exists items,
      append_parts calculate_cost choose_quantity selected_parts quote_items
      = Return items.
Proof.
  induction selected_parts as [|s rest IH]; intros H acc; simpl.
  - eauto.
  - simpl in H. apply Forall_app in H. destruct H as [H1 H2].
    destruct (append_procs_returns _ _ _ H1 acc) as (mid & ->). simpl.
    apply IH, H2.
Qed.

Lemma fill_quote_items_tuples selected_parts items :
  fill_quote_items calculate_cost choose_quantity selected_parts = Return items ->
  map item_tuple items = selection_tuples choose_quantity selected_parts.
Proof.
  intros H. apply append_parts_tuples in H.
  destruct H as (new & -> & H). exact H.
Qed.

End QuoteLoopFacts.

Section QuantityFacts.

Variable calculate_cost : string -> string -> Z -> outcome (float * float * float).
Variable choose_quantity : option Z -> bool -> Z -> Z.

Lemma append_procs_costed row qty procs :
  forall quote_items items,
    append_procs calculate_cost row qty procs quote_items = Return items ->
    exists new,
      items = quote_items ++ new
      /\ map item_tuple new
         = map (fun proc => (Parts.PartNumber row, Parts.Description row, proc, qty))
             procs
      /\ Forall (costed_at calculate_cost qty) new.
Proof.
  induction procs as [|proc rest IH]; intros acc items H; simpl in H.
  - injection H as <-. exists []. rewrite app_nil_r. repeat split. constructor.
  - destruct (calculate_cost (Parts.PartNumber row) proc qty)
      as [[[base_cost multiplier] total]|e] eqn:E; simpl in H; [|discriminate H].
    apply IH in H. destruct H as (new & -> & Hnew & Hcosted).
    eexists (_ :: new). rewrite <- app_assoc. split; [reflexivity|]. split.
    + simpl. now f_equal.
    + constructor; [|exact Hcosted]. split; [reflexivity | exact E].
Qed.

Lemma append_parts_app before after :
  forall quote_items,
    append_parts calculate_cost choose_quantity (before ++ after) quote_items
    = Py.bind (append_parts calculate_cost choose_quantity before quote_items)
        (append_parts calculate_cost choose_quantity after).
Proof.
  induction before as [|s rest IH]; intros acc; simpl; [reflexivity|].
  destruct (append_procs calculate_cost (part_row s) _ (selected_procs s) acc);
    simpl; [apply IH | reflexivity].
Qed.

(** The line items of one selection inside a completed quote. *)
Lemma fill_quote_items_selection before s after items :
  fill_quote_items calculate_cost choose_quantity (before ++ s :: after)
  = Return items ->
  let quantity :=
    choose_quantity (Parts.SeriesQty (part_row s)) (use_series s) (entered s) in
  exists items_before items_s items_after,
    items = items_before ++ items_s ++ items_after
    /\ map item_tuple items_before = selection_tuples choose_quantity before
    /\ map item_tuple items_s
       = map (fun proc => (Parts.PartNumber (part_row s),
                           Parts.Description (part_row s), proc, quantity))
           (selected_procs s)
    /\ Forall (costed_at calculate_cost quantity) items_s
    /\ map item_tuple items_after = selection_tuples choose_quantity after.
Proof.
  intros H quantity. unfold fill_quote_items in H.
  rewrite append_parts_app in H.
  destruct (append_parts calculate_cost choose_quantity before []) as [mid1|e] eqn:E1;
    simpl in H; [|discriminate H].
  fold quantity in H.
  destruct (append_procs calculate_cost (part_row s) quantity (selected_procs s) mid1)
    as [mid2|e] eqn:E2; simpl in H; [|discriminate H].
  apply append_parts_tuples in E1. destruct E1 as (ib & -> & Hb).
  apply append_procs_costed in E2. destruct E2 as (is_ & -> & Hs & Hc).
  apply append_parts_tuples in H. destruct H as (ia & -> & Ha).
  exists ib, is_, ia. simpl. rewrite <- app_assoc. auto.
Qed.

End QuantityFacts.

Lemma priceable_priced pdf mdf t :
  priceable pdf t ->
  priced (app_calculate_cost pdf mdf) t /\ priced (web_calculate_cost pdf mdf) t.
Proof.
  destruct t as [[[pn desc] proc] qty]. intros (Hhas & qf & Hq). simpl.
  destruct (calculate_cost_present mdf pn qty Hhas) as (r & m & _ & _ & Hok & _).
  destruct (Hok qf Hq) as [Ha Hw]. split; eexists; eassumption.
Qed.

(** C7. For a part whose SeriesQty is present (and, as the data model has
    it, not zero), the quantity passed to [calculate_cost] is the SeriesQty
    when the user chose "use full series", and the quantity the user
    supplied otherwise: in a completed quote, the line items of that part's
    selection -- one per chosen procedure, in order -- record that quantity
    and carry what [calculate_cost] returns for it; and the quote is
    completed when every selection can be priced. This holds in both front
    ends. *)
Theorem quantity_full_series_or_entered pdf mdf before s after n :
  Parts.SeriesQty (part_row s) = Some n ->
  n <> 0%Z ->
  let quantity := if use_series s then n else entered s in
  (forall items,
     app_quote_items pdf mdf (before ++ s :: after) = Return items ->
     exists items_before items_s items_after,
       items = items_before ++ items_s ++ items_after
       /\ map item_tuple items_before = selection_tuples app_quantity before
       /\ map item_tuple items_s
          = map (fun proc => (Parts.PartNumber (part_row s),
                              Parts.Description (part_row s), proc, quantity))
              (selected_procs s)
       /\ Forall (costed_at (app_calculate_cost pdf mdf) quantity) items_s
       /\ map item_tuple items_after = selection_tuples app_quantity after)
  /\ (forall items,
        web_quote_items pdf mdf (before ++ s :: after) = Return items ->
        exists items_before items_s items_after,
          items = items_before ++ items_s ++ items_after
          /\ map item_tuple items_before = selection_tuples web_quantity before
          /\ map item_tuple items_s
             = map (fun proc => (Parts.PartNumber (part_row s),
                                 Parts.Description (part_row s), proc, quantity))
                 (selected_procs s)
          /\ Forall (costed_at (web_calculate_cost pdf mdf) quantity) items_s
          /\ map item_tuple items_after = selection_tuples web_quantity after)
  /\ (Forall (priceable pdf) (selection_tuples app_quantity (before ++ s :: after)) ->
      exists items, app_quote_items pdf mdf (before ++ s :: after) = Return items)
  /\ (Forall (priceable pdf) (selection_tuples web_quantity (before ++ s :: after)) ->
      exists items, web_quote_items pdf mdf (before ++ s :: after) = Return items).
Proof.
  intros Hs Hn quantity.
  assert (Ha : app_quantity (Parts.SeriesQty (part_row s)) (use_series s) (entered s)
               = quantity).
  { rewrite Hs. unfold app_quantity, quantity.
    apply Z.eqb_neq in Hn. rewrite Hn. reflexivity. }
  assert (Hw : web_quantity (Parts.SeriesQty (part_row s)) (use_series s) (entered s)
               = quantity).
  { now rewrite web_quantity_app_quantity. }
  split; [intros items H; apply fill_quote_items_selection in H;
          rewrite Ha in H; exact H|].
  split; [intros items H; apply fill_quote_items_selection in H;
          rewrite Hw in H; exact H|].
  split; intros H; apply append_parts_returns;
    (eapply Forall_impl; [|exact H]); intros t Ht;
    apply (@priceable_priced pdf mdf t) in Ht; tauto.
Qed.

Lemma quantity_full_series_or_entered_witness :
  exists items_before items_s items_after,
    [ Item.Make "P1" "Seal" "R100" 3 200%float 1.5%float 900%float;
      Item.Make "P2" "Blade set" "R200" 12 75%float 2%float 1800%float ]
    = items_before ++ items_s ++ items_after
    /\ map item_tuple items_before
       = selection_tuples app_quantity [Selection Sample.seal false 3 ["R100"%string]]
    /\ map item_tuple items_s
       = map (fun proc => ("P2", "Blade set", proc, 12%Z))%string ["R200"%string]
    /\ Forall (costed_at
                 (app_calculate_cost Sample.procedures_df Sample.multipliers_df) 12)
         items_s
    /\ map item_tuple items_after = selection_tuples app_quantity [].
Proof.
  apply (proj1 (@quantity_full_series_or_entered
                  Sample.procedures_df Sample.multipliers_df
                  [Selection Sample.seal false 3 ["R100"%string]]
                  (Selection Sample.blade true 5 ["R200"%string]) [] 12%Z
                  eq_refl ltac:(lia))).
  vm_compute. reflexivity.
Defined.

(** C5. The loop that fills [quote_items] keeps the order of the
    selections: whenever it completes, the line items carry, in the same
    order, the part number, description, procedure code and quantity of
    the selection tuples; and it does complete when every selection can be
    priced. This holds for the loop of either front end. *)
Theorem quote_items_in_selection_order pdf mdf selected_parts :
  (forall items,
     app_quote_items pdf mdf selected_parts = Return items ->
     map item_tuple items = selection_tuples app_quantity selected_parts)
  /\ (forall items,
        web_quote_items pdf mdf selected_parts = Return items ->
        map item_tuple items = selection_tuples web_quantity selected_parts)
  /\ (Forall (priceable pdf) (selection_tuples app_quantity selected_parts) ->
      exists items, app_quote_items pdf mdf selected_parts = Return items)
  /\ (Forall (priceable pdf) (selection_tuples web_quantity selected_parts) ->
      exists items, web_quote_items pdf mdf selected_parts = Return items).
Proof.
  split; [intros items; apply fill_quote_items_tuples|].
  split; [intros items; apply fill_quote_items_tuples|].
  split; intros H; apply append_parts_returns;
    (eapply Forall_impl; [|exact H]); intros t Ht;
    apply (@priceable_priced pdf mdf t) in Ht; tauto.
Qed.

Lemma quote_items_in_selection_order_witness :
  exists items,
    app_quote_items Sample.priced_procedures_df [] Sample.selected_parts = Return items
    /\ map item_tuple items
       = [ ("P1", "Seal", "R1", 1%Z); ("P2", "Blade set", "R2", 1%Z);
           ("P2", "Blade set", "R3", 1%Z) ]%string.
Proof.
  destruct (quote_items_in_selection_order
              Sample.priced_procedures_df [] Sample.selected_parts)
    as (Horder & _ & Hreturns & _).
  destruct Hreturns as (items & Hitems).
  - simpl.
    repeat (apply Forall_cons;
            [split; [apply has_procedure_by_mask; reflexivity
                    | exists 1%float; vm_compute; reflexivity]|]).
    apply Forall_nil.
  - exists items. split; [exact Hitems|]. exact (Horder items Hitems).
Defined.

(** ** Totals per part *)

Lemma existsb_eqb_In k l : existsb (String.eqb k) l = true <-> In k l.
Proof.
  rewrite existsb_exists. split.
  - intros (x & Hin & E). apply String.eqb_eq in E. now subst.
  - intros H. exists k. split; [exact H | apply String.eqb_refl].
Qed.

Lemma first_occurrences_from_In seen l k :
  In k (first_occurrences_from seen l) -> In k l.
Proof.
  revert seen. induction l as [|x rest IH]; intros seen H; simpl in H; [exact H|].
  destruct (existsb (String.eqb x) seen).
  - right. eapply IH, H.
  - destruct H as [-> | H]; [now left | right; eapply IH, H].
Qed.

Section AccumulateFacts.

Context {num : Type} (add : num -> num -> num) (zero : num).
Context {item : Type} (part_number : item -> string) (total : item -> num).

Local Abbreviation bump := (add_at add zero).
Local Abbreviation step := (accumulate_step add zero part_number total).
Local Abbreviation sum := (sum_from_zero add zero).

Lemma add_at_keys d k v :
  map fst (bump d k v)
  = if existsb (String.eqb k) (map fst d) then map fst d else map fst d ++ [k].
Proof.
  induction d as [|[k' s] d IH]; simpl; [reflexivity|].
  rewrite (String.eqb_sym k k').
  destruct (k' =? k)%string; simpl; [reflexivity|].
  rewrite IH. now destruct (existsb (String.eqb k) (map fst d)).
Qed.

Lemma accumulate_keys items :
  forall d g,
    map fst (fst (fold_left step items (d, g)))
    = map fst d ++ first_occurrences_from (map fst d) (map part_number items).
Proof.
  induction items as [|i items IH]; intros d g; simpl.
  - now rewrite app_nil_r.
  - rewrite IH, add_at_keys.
    destruct (existsb (String.eqb (part_number i)) (map fst d)); [reflexivity|].
    now rewrite <- app_assoc.
Qed.

Lemma accumulate_grand items :
  forall d g,
    snd (fold_left step items (d, g)) = fold_left add (map total items) g.
Proof.
  induction items as [|i items IH]; intros d g; simpl; [reflexivity|].
  apply IH.
Qed.

Lemma add_at_NoDup d k v : NoDup (map fst d) -> NoDup (map fst (bump d k v)).
Proof.
  intros H. rewrite add_at_keys.
  destruct (existsb (String.eqb k) (map fst d)) eqn:E; [exact H|].
  apply NoDup_app; [exact H | repeat constructor; intros [] |].
  intros x Hx [<- | []].
  apply existsb_eqb_In in Hx. congruence.
Qed.

Lemma accumulate_NoDup items :
  forall d g, NoDup (map fst d) -> NoDup (map fst (fst (fold_left step items (d, g)))).
Proof.
  induction items as [|i items IH]; intros d g H; simpl; [exact H|].
  apply IH, add_at_NoDup, H.
Qed.

Lemma lookup_add_at d k v k' :
  lookup (bump d k v) k'
  = if (k' =? k)%string
    then Some (add (match lookup d k with Some s => s | None => zero end) v)
    else lookup d k'.
Proof.
  induction d as [|[k0 s] d IH]; simpl.
  - rewrite (String.eqb_sym k k'). reflexivity.
  - destruct (k0 =? k)%string eqn:E0; simpl.
    + apply String.eqb_eq in E0. subst k0.
      rewrite (String.eqb_sym k k'). now destruct (k' =? k)%string.
    + rewrite IH. destruct (k0 =? k')%string eqn:E1; [|reflexivity].
      apply String.eqb_eq in E1. subst k0.
      now rewrite E0.
Qed.

Lemma accumulate_lookup k items :
  forall d g,
    lookup (fst (fold_left step items (d, g))) k
    = let mine := map total (filter (fun i => (part_number i =? k)%string) items) in
      match lookup d k, mine with
      | Some s, _ => Some (fold_left add mine s)
      | None, [] => None
      | None, _ :: _ => Some (fold_left add mine zero)
      end.
Proof.
  induction items as [|i items IH]; intros d g; simpl.
  - now destruct (lookup d k).
  - rewrite IH, lookup_add_at. rewrite (String.eqb_sym k (part_number i)).
    destruct (part_number i =? k)%string eqn:E; simpl.
    + apply String.eqb_eq in E. subst k. now destruct (lookup d (part_number i)).
    + reflexivity.
Qed.

Lemma NoDup_lookup (d : list (string * num)) k s :
  NoDup (map fst d) -> In (k, s) d -> lookup d k = Some s.
Proof.
  induction d as [|[k0 s0] d IH]; intros Hnd Hin; [destruct Hin|].
  simpl in *. inversion Hnd as [|x xs Hx Hnd']; subst.
  destruct Hin as [E | Hin].
  - injection E as -> ->. now rewrite String.eqb_refl.
  - destruct (k0 =? k)%string eqn:E; [|now apply IH].
    apply String.eqb_eq in E. subst k0.
    exfalso. apply Hx. change k with (fst (k, s)). now apply in_map.
Qed.

(** Every subtotal is the left-to-right sum of the totals of its part. *)
Lemma accumulate_subtotal items k s :
  In (k, s) (fst (accumulate add zero part_number total items)) ->
  s = sum (map total (filter (fun i => (part_number i =? k)%string) items)).
Proof.
  intros Hin. unfold accumulate in Hin.
  apply NoDup_lookup in Hin; [|apply accumulate_NoDup; constructor].
  rewrite accumulate_lookup in Hin. simpl in Hin.
  destruct (map total (filter (fun i => (part_number i =? k)%string) items));
    [discriminate Hin|].
  now injection Hin as <-.
Qed.

Section Exact.

Hypothesis add_assoc : forall a b c, add a (add b c) = add (add a b) c.
Hypothesis add_comm : forall a b, add a b = add b a.
Hypothesis add_zero_l : forall a, add zero a = a.

Lemma fold_add_from a l : fold_left add l a = add a (fold_left add l zero).
Proof.
  revert a. induction l as [|x l IH]; intros a; simpl.
  - now rewrite add_comm, add_zero_l.
  - now rewrite IH, (IH (add zero x)), add_zero_l, add_assoc.
Qed.

Lemma sum_nil : sum [] = zero.
Proof. reflexivity. Qed.

Lemma sum_cons x l : sum (x :: l) = add x (sum l).
Proof.
  unfold sum_from_zero. cbn [fold_left]. rewrite add_zero_l. apply fold_add_from.
Qed.

Lemma add_zero_r a : add a zero = a.
Proof. now rewrite add_comm, add_zero_l. Qed.

Lemma sum_add_at d k v :
  sum (map snd (bump d k v)) = add (sum (map snd d)) v.
Proof.
  induction d as [|[k' s] d IH]; cbn [add_at map snd].
  - now rewrite sum_cons, !sum_nil, add_zero_r.
  - destruct (k' =? k)%string; cbn [map snd]; rewrite !sum_cons.
    + rewrite <- !add_assoc. f_equal. apply add_comm.
    + now rewrite IH, add_assoc.
Qed.

Lemma accumulate_exact items :
  forall d g,
    sum (map snd (fst (fold_left step items (d, g))))
    = add (sum (map snd d)) (sum (map total items)).
Proof.
  induction items as [|i items IH]; intros d g;
    cbn [fold_left map accumulate_step].
  - now rewrite sum_nil, add_zero_r.
  - now rewrite IH, sum_add_at, sum_cons, add_assoc.
Qed.

Lemma accumulate_sums_agree items :
  sum (map snd (fst (accumulate add zero part_number total items)))
  = snd (accumulate add zero part_number total items)
  /\ snd (accumulate add zero part_number total items) = sum (map total items).
Proof.
  unfold accumulate. rewrite accumulate_exact, accumulate_grand.
  split; [|reflexivity].
  cbn [map]. rewrite sum_nil. apply add_zero_l.
Qed.

End Exact.

End AccumulateFacts.

Lemma first_occurrences_from_snoc l k :
  forall seen,
    first_occurrences_from seen (l ++ [k])
    = first_occurrences_from seen l
      ++ (if existsb (String.eqb k) (seen ++ l) then [] else [k]).
Proof.
  induction l as [|x l IH]; intros seen; simpl.
  - rewrite app_nil_r. now destruct (existsb (String.eqb k) seen).
  - destruct (existsb (String.eqb x) seen) eqn:E.
    + rewrite IH. f_equal. rewrite !existsb_app. simpl.
      destruct (k =? x)%string eqn:Ek; [|reflexivity].
      apply String.eqb_eq in Ek. subst x. rewrite E. reflexivity.
    + simpl. rewrite IH. now rewrite <- app_assoc.
Qed.

(** What "first-occurrence order" means: reading a list from the left, a
    part number is appended when it has not been met, and left where it is
    otherwise. *)
Lemma first_occurrences_snoc l k :
  first_occurrences (l ++ [k])
  = if existsb (String.eqb k) l then first_occurrences l
    else first_occurrences l ++ [k].
Proof.
  unfold first_occurrences. rewrite first_occurrences_from_snoc. simpl.
  destruct (existsb (String.eqb k) l); [apply app_nil_r | reflexivity].
Qed.

Lemma first_item_exists items pn :
  In pn (map Item.PartNumber items) ->
  exists i, first_such (fun i => Item.PartNumber i = pn) items i.
Proof.
  induction items as [|x items IH]; intros Hin; [destruct Hin|].
  destruct (String.eqb_spec (Item.PartNumber x) pn) as [E | E].
  - exists x, [], items. repeat split; [constructor | exact E].
  - destruct Hin as [Hx | Hin]; [contradiction|].
    destruct (IH Hin) as (i & before & after & -> & Hb & Hi).
    exists i, (x :: before), after. repeat split; auto.
Qed.

Lemma subtotal_description_first items pn i :
  first_such (fun i => Item.PartNumber i = pn) items i ->
  subtotal_description items pn = Return (Item.Description i).
Proof.
  intros (before & after & -> & Hb & Hi). unfold subtotal_description.
  rewrite (@filter_first _ (fun i => (Item.PartNumber i =? pn)%string)
             (fun i => Item.PartNumber i = pn)
             (fun i => String.eqb_eq (Item.PartNumber i) pn) before i after Hb Hi).
  reflexivity.
Qed.

Lemma subtotal_lines_described items totals :
  Forall (fun kv => In (fst kv) (map Item.PartNumber items)) totals ->
  exists lines,
    subtotal_lines items totals = Return lines
    /\ map (fun l => (fst (fst l), snd l)) lines = totals
    /\ Forall (fun l =>
                exists i,
                  first_such (fun i => Item.PartNumber i = fst (fst l)) items i
                  /\ snd (fst l) = Item.Description i)
         lines.
Proof.
  induction 1 as [|[k s] totals Hk _ (lines & Hl & Hmap & Hdesc)]; simpl.
  - exists []. repeat split. constructor.
  - simpl in Hk. destruct (first_item_exists _ _ Hk) as (i & Hi).
    rewrite (subtotal_description_first Hi), Hl. simpl.
    exists ((k, Item.Description i, s) :: lines). split; [reflexivity|].
    split; [simpl; now rewrite Hmap|].
    constructor; [|exact Hdesc]. exists i. split; [exact Hi | reflexivity].
Qed.

(** C6. The keys of [part_totals] are the part numbers of the line items in
    the order of their first occurrence; the subtotal lines are produced,
    one per key and in that order, each with its subtotal and with the
    description of the first line item that has its part number. *)
Theorem subtotals_in_first_occurrence_order items :
  map fst (part_totals items) = first_occurrences (map Item.PartNumber items)
  /\ exists lines,
       subtotal_lines items (part_totals items) = Return lines
       /\ map (fun l => (fst (fst l), snd l)) lines = part_totals items
       /\ Forall (fun l =>
                   exists i,
                     first_such (fun i => Item.PartNumber i = fst (fst l)) items i
                     /\ snd (fst l) = Item.Description i)
            lines.
Proof.
  assert (Hkeys : map fst (part_totals items)
                  = first_occurrences (map Item.PartNumber items)).
  { exact (accumulate_keys PrimFloat.add 0%float Item.PartNumber Item.Total
             items [] 0%float). }
  split; [exact Hkeys|].
  apply subtotal_lines_described. apply Forall_forall. intros [k s] Hin.
  apply (in_map fst) in Hin. rewrite Hkeys in Hin.
  eapply first_occurrences_from_In, Hin.
Qed.

(** ** Grand total and subtotals *)

Lemma subtotals_pass_accumulate {num item : Type} (add : num -> num -> num)
    (zero : num) (part_number : item -> string) (total : item -> num) items :
  subtotals_pass add zero part_number total items
  = fst (accumulate add zero part_number total items).
Proof.
  unfold subtotals_pass, accumulate.
  assert (H : forall (d : list (string * num)) (g : num),
             fold_left (fun part_totals i =>
                          add_at add zero part_totals (part_number i) (total i))
               items d
             = fst (fold_left (accumulate_step add zero part_number total) items
                      (d, g))).
  { induction items as [|i items IH]; intros d g; simpl; [reflexivity|].
    apply IH. }
  apply H.
Qed.

(** C3, as amended. Both front ends fill [part_totals] by the same pass:
    every subtotal is the left-to-right binary64 sum, from 0.0, of the
    totals of the line items of its part. The grand total of [app.py] is
    the left-to-right binary64 sum of the totals of the line items, in an
    accumulator of its own; the grand total of [app_streamlit.py] is
    [df['Total'].sum()], computed from the column of totals and apart from
    the subtotals, and it is the grand total of [app.py] when that sum adds
    from left to right. Grand total, sum of the subtotals and sum of the
    totals are equal whenever the pass is run with an exact addition
    (associative, commutative, with neutral zero, as fixed-point decimals
    have): for [app.py], and for [app_streamlit.py] provided the sum of the
    column is that exact sum. *)
Theorem quote_totals items :
  grand_total items = sum_from_zero PrimFloat.add 0%float (map Item.Total items)
  /\ web_part_totals items = part_totals items
  /\ (forall series_sum : list float -> float,
        web_grand_total series_sum items = series_sum (map Item.Total items)
        /\ (series_sum (map Item.Total items)
            = sum_from_zero PrimFloat.add 0%float (map Item.Total items) ->
            web_grand_total series_sum items = grand_total items))
  /\ (forall k s,
        In (k, s) (part_totals items) ->
        s = sum_from_zero PrimFloat.add 0%float
              (map Item.Total
                 (filter (fun i => (Item.PartNumber i =? k)%string) items)))
  /\ (forall (num : Type) (add : num -> num -> num) (zero : num)
             (total : Item.t -> num),
        (forall a b c, add a (add b c) = add (add a b) c) ->
        (forall a b, add a b = add b a) ->
        (forall a, add zero a = a) ->
        sum_from_zero add zero
          (map snd (fst (accumulate add zero Item.PartNumber total items)))
        = snd (accumulate add zero Item.PartNumber total items)
        /\ snd (accumulate add zero Item.PartNumber total items)
           = sum_from_zero add zero (map total items)
        /\ (forall series_sum : list num -> num,
              series_sum (map total items)
              = sum_from_zero add zero (map total items) ->
              column_sum total series_sum items
              = sum_from_zero add zero
                  (map snd (subtotals_pass add zero Item.PartNumber total items)))).
Proof.
  assert (Hgrand : grand_total items
                   = sum_from_zero PrimFloat.add 0%float (map Item.Total items))
    by apply accumulate_grand.
  split; [exact Hgrand|].
  split; [apply subtotals_pass_accumulate|].
  split.
  { intros series_sum. split; [reflexivity|].
    intros Hsum. rewrite Hgrand, <- Hsum. reflexivity. }
  split; [intros k s; apply accumulate_subtotal|].
  intros num add zero total Hassoc Hcomm Hzero.
  destruct (accumulate_sums_agree add zero Item.PartNumber total
              Hassoc Hcomm Hzero items) as [H1 H2].
  split; [exact H1|]. split; [exact H2|].
  intros series_sum Hsum. unfold column_sum.
  rewrite Hsum, subtotals_pass_accumulate, H1, H2. reflexivity.
Qed.

Lemma quote_totals_witness :
  sum_from_zero Z.add 0%Z
    (map snd (fst (accumulate Z.add 0%Z Item.PartNumber Sample.cents Sample.quote_items)))
  = snd (accumulate Z.add 0%Z Item.PartNumber Sample.cents Sample.quote_items)
  /\ snd (accumulate Z.add 0%Z Item.PartNumber Sample.cents Sample.quote_items)
     = sum_from_zero Z.add 0%Z (map Sample.cents Sample.quote_items)
  /\ (forall series_sum : list Z -> Z,
        series_sum (map Sample.cents Sample.quote_items)
        = sum_from_zero Z.add 0%Z (map Sample.cents Sample.quote_items) ->
        column_sum Sample.cents series_sum Sample.quote_items
        = sum_from_zero Z.add 0%Z
            (map snd (subtotals_pass Z.add 0%Z Item.PartNumber Sample.cents
                        Sample.quote_items))).
Proof.
  apply (proj2 (proj2 (proj2 (proj2 (quote_totals Sample.quote_items))))
           Z Z.add 0%Z Sample.cents).
  - intros a b c. lia.
  - intros a b. lia.
  - intros a. lia.
Defined.

(** C3 as stated fails on the code: a quote of three line items whose
    grand total is not the sum of its two subtotals. *)
Lemma grand_total_drifts :
  app_quote_items Sample.priced_procedures_df [] Sample.selected_parts
  = Return Sample.quote_items
  /\ Sample.quote_items <> []
  /\ part_totals Sample.quote_items = [("P1", 100.10); ("P2", 500.5)]%float%string
  /\ grand_total Sample.quote_items
     <> sum_from_zero PrimFloat.add 0%float (map snd (part_totals Sample.quote_items)).
Proof.
  split; [vm_compute; reflexivity|]. split; [discriminate|].
  split; [vm_compute; reflexivity|].
  intros H. apply (f_equal Prim2SF) in H. vm_compute in H. discriminate H.
Qed.


(** * Further properties of the code *)

(** ** Pricing *)

(** X1. For a procedure code that has an entry and a quantity below 2^53
    in absolute value, [calculate_cost] returns a triple in both front
    ends: none of its errors can occur. *)
Theorem calculate_cost_returns_in_range pdf mdf p c q :
  has_procedure pdf c ->
  (Z.abs q < 2 ^ 53)%Z ->
  exists triple,
    app_calculate_cost pdf mdf p c q = Return triple
    /\ web_calculate_cost pdf mdf p c q = Return triple.
Proof.
  intros Hhas Hq. destruct (float_of_int_small q Hq) as (qf & Hqf).
  destruct (calculate_cost_present mdf p q Hhas) as (r & m & _ & _ & Hok & _).
  eexists. exact (Hok qf Hqf).
Qed.

Lemma calculate_cost_returns_in_range_witness :
  exists triple,
    app_calculate_cost Sample.procedures_df Sample.multipliers_df "P1" "R100" 12
    = Return triple
    /\ web_calculate_cost Sample.procedures_df Sample.multipliers_df "P1" "R100" 12
       = Return triple.
Proof.
  apply (@calculate_cost_returns_in_range
           Sample.procedures_df Sample.multipliers_df "P1" "R100" 12%Z).
  - exact sample_has_R100.
  - reflexivity.
Defined.

Lemma existsb_filter {A : Type} (f : A -> bool) l :
  existsb f l = negb (Py.empty (filter f l)).
Proof.
  induction l as [|x l IH]; simpl; [reflexivity|].
  destruct (f x); simpl; [reflexivity | exact IH].
Qed.

(** X2. Over two tables put end to end, [get_multiplier] answers from the
    first one when it has a row for the pair, and from the second one
    otherwise: rows for other pairs, wherever they are, change nothing. *)
Theorem get_multiplier_app mdf1 mdf2 p c :
  get_multiplier (mdf1 ++ mdf2) p c
  = if existsb (multiplier_mask p c) mdf1
    then get_multiplier mdf1 p c
    else get_multiplier mdf2 p c.
Proof.
  rewrite existsb_filter. unfold get_multiplier. rewrite filter_app.
  destruct (filter (multiplier_mask p c) mdf1); reflexivity.
Qed.

(** ** The quote loop *)

Lemma first_failure_app calc l1 l2 :
  first_failure calc (l1 ++ l2)
  = match first_failure calc l1 with
    | Some e => Some e
    | None => first_failure calc l2
    end.
Proof.
  induction l1 as [|[[[pn desc] proc] qty] l1 IH]; simpl; [reflexivity|].
  destruct (calc pn proc qty); [exact IH | reflexivity].
Qed.

Lemma first_failure_Some calc tuples e :
  first_failure calc tuples = Some e <->
  exists before t after,
    tuples = before ++ t :: after
    /\ Forall (priced calc) before
    /\ first_failure calc [t] = Some e.
Proof.
  split.
  - induction tuples as [|[[[pn desc] proc] qty] rest IH]; simpl; [discriminate|].
    destruct (calc pn proc qty) as [triple|e'] eqn:E.
    + intros H. destruct (IH H) as (before & t & after & -> & Hb & Ht).
      exists ((pn, desc, proc, qty) :: before), t, after.
      split; [reflexivity|]. split; [|exact Ht].
      constructor; [|exact Hb]. simpl. eauto.
    + intros H. exists [], (pn, desc, proc, qty), rest.
      split; [reflexivity|]. split; [constructor|]. simpl. now rewrite E.
  - intros (before & t & after & -> & Hb & Ht).
    induction Hb as [|[[[pn desc] proc] qty] before (triple & Hx) _ IH]; simpl.
    + destruct t as [[[pn desc] proc] qty]. simpl in Ht.
      destruct (calc pn proc qty); [discriminate Ht | exact Ht].
    + now rewrite Hx.
Qed.

Section QuoteLoopOutcome.

Variable calculate_cost : string -> string -> Z -> outcome (float * float * float).
Variable choose_quantity : option Z -> bool -> Z -> Z.

Lemma append_procs_outcome row qty procs :
  forall quote_items,
    match append_procs calculate_cost row qty procs quote_items with
    | Return items =>
        first_failure calculate_cost
          (map (fun proc => (Parts.PartNumber row, Parts.Description row, proc, qty))
               procs) = None
        /\ (Forall (costed calculate_cost) quote_items ->
            Forall (costed calculate_cost) items)
    | Raise e =>
        first_failure calculate_cost
          (map (fun proc => (Parts.PartNumber row, Parts.Description row, proc, qty))
               procs) = Some e
    end.
Proof.
  induction procs as [|proc rest IH]; intros acc; simpl.
  - split; [reflexivity | trivial].
  - destruct (calculate_cost (Parts.PartNumber row) proc qty)
      as [[[base_cost multiplier] total]|e] eqn:E; simpl; [|reflexivity].
    specialize (IH (acc ++ [Item.Make (Parts.PartNumber row) (Parts.Description row)
                              proc qty base_cost multiplier total])).
    destruct (append_procs calculate_cost row qty rest _) as [items|e];
      [|exact IH].
    destruct IH as [Hnone Hcosted]. split; [exact Hnone|].
    intros Hacc. apply Hcosted. apply Forall_app. split; [exact Hacc|].
    constructor; [exact E | constructor].
Qed.

Lemma append_parts_outcome selected_parts :
  forall quote_items,
    match append_parts calculate_cost choose_quantity selected_parts quote_items with
    | Return items =>
        first_failure calculate_cost (selection_tuples choose_quantity selected_parts)
        = None
        /\ (Forall (costed calculate_cost) quote_items ->
            Forall (costed calculate_cost) items)
    | Raise e =>
        first_failure calculate_cost (selection_tuples choose_quantity selected_parts)
        = Some e
    end.
Proof.
  induction selected_parts as [|s rest IH]; intros acc; simpl.
  - split; [reflexivity | trivial].
  - rewrite first_failure_app.
    pose proof (append_procs_outcome (part_row s)
                  (choose_quantity (Parts.SeriesQty (part_row s)) (use_series s)
                     (entered s))
                  (selected_procs s) acc) as Hp.
    destruct (append_procs calculate_cost (part_row s) _ (selected_procs s) acc)
      as [mid|e]; simpl.
    + destruct Hp as [-> Hmid]. specialize (IH mid).
      destruct (append_parts calculate_cost choose_quantity rest mid) as [items|e];
        [|exact IH].
      destruct IH as [Hnone Hitems]. split; [exact Hnone | auto].
    + now rewrite Hp.
Qed.

End QuoteLoopOutcome.

(** X3. Every line item of a completed quote carries the base cost,
    multiplier and total that [calculate_cost] returns for the item's own
    part number, procedure code and quantity -- in both front ends. *)
Theorem quote_items_costed pdf mdf selected_parts :
  (forall items,
     app_quote_items pdf mdf selected_parts = Return items ->
     Forall (costed (app_calculate_cost pdf mdf)) items)
  /\ (forall items,
        web_quote_items pdf mdf selected_parts = Return items ->
        Forall (costed (web_calculate_cost pdf mdf)) items).
Proof.
  split; intros items H.
  - pose proof (append_parts_outcome (app_calculate_cost pdf mdf) app_quantity
                  selected_parts []) as Ho.
    unfold app_quote_items, fill_quote_items in H. rewrite H in Ho.
    apply Ho. constructor.
  - pose proof (append_parts_outcome (web_calculate_cost pdf mdf) web_quantity
                  selected_parts []) as Ho.
    unfold web_quote_items, fill_quote_items in H. rewrite H in Ho.
    apply Ho. constructor.
Qed.

Lemma fill_quote_items_first_failure calc choose selected_parts e :
  fill_quote_items calc choose selected_parts = Raise e <->
  exists before t after,
    selection_tuples choose selected_parts = before ++ t :: after
    /\ Forall (priced calc) before
    /\ first_failure calc [t] = Some e.
Proof.
  rewrite <- first_failure_Some.
  pose proof (append_parts_outcome calc choose selected_parts []) as Ho.
  unfold fill_quote_items.
  destruct (append_parts calc choose selected_parts []) as [items|e'].
  - destruct Ho as [-> _]. split; discriminate.
  - rewrite Ho. split; intros H; injection H as ->; reflexivity.
Qed.

(** X4. The loop that fills [quote_items] stops at the first selection, in
    order, that [calculate_cost] refuses, and raises that exception: it
    raises [e] exactly when the selection tuples split into tuples that are
    all priced, then one on which [calculate_cost] raises [e]. No partial
    quote is produced. This holds for the loop of either front end. *)
Theorem quote_items_first_failure pdf mdf selected_parts e :
  (app_quote_items pdf mdf selected_parts = Raise e <->
   exists before t after,
     selection_tuples app_quantity selected_parts = before ++ t :: after
     /\ Forall (priced (app_calculate_cost pdf mdf)) before
     /\ first_failure (app_calculate_cost pdf mdf) [t] = Some e)
  /\ (web_quote_items pdf mdf selected_parts = Raise e <->
      exists before t after,
        selection_tuples web_quantity selected_parts = before ++ t :: after
        /\ Forall (priced (web_calculate_cost pdf mdf)) before
        /\ first_failure (web_calculate_cost pdf mdf) [t] = Some e).
Proof. split; apply fill_quote_items_first_failure. Qed.

Lemma selection_tuples_ext choose1 choose2 selected_parts :
  (forall sq u n, choose1 sq u n = choose2 sq u n) ->
  selection_tuples choose1 selected_parts = selection_tuples choose2 selected_parts.
Proof.
  intros H. unfold selection_tuples.
  induction selected_parts as [|s rest IH]; simpl; [reflexivity|].
  now rewrite IH, H.
Qed.

Lemma append_procs_ext calc1 calc2 row qty procs :
  Forall (fun proc => calc1 (Parts.PartNumber row) proc qty
                      = calc2 (Parts.PartNumber row) proc qty) procs ->
  forall quote_items,
    append_procs calc1 row qty procs quote_items
    = append_procs calc2 row qty procs quote_items.
Proof.
  induction 1 as [|proc rest Hp _ IH]; intros acc; simpl; [reflexivity|].
  rewrite Hp. destruct (calc2 (Parts.PartNumber row) proc qty) as [t|e];
    simpl; [|reflexivity].
  destruct t as [[b m] t]. apply IH.
Qed.

Lemma append_parts_ext calc1 calc2 choose selected_parts :
  Forall (fun t => let '(pn, _, proc, qty) := t in calc1 pn proc qty = calc2 pn proc qty)
    (selection_tuples choose selected_parts) ->
  forall quote_items,
    append_parts calc1 choose selected_parts quote_items
    = append_parts calc2 choose selected_parts quote_items.
Proof.
  induction selected_parts as [|s rest IH]; intros H acc; simpl; [reflexivity|].
  simpl in H. apply Forall_app in H. destruct H as [H1 H2].
  rewrite (@append_procs_ext calc1 calc2 (part_row s) _ (selected_procs s)).
  - destruct (append_procs calc2 (part_row s) _ (selected_procs s) acc);
      simpl; [apply IH, H2 | reflexivity].
  - rewrite Forall_map in H1. exact H1.
Qed.

Lemma append_parts_choose_ext calc choose1 choose2 selected_parts :
  (forall sq u n, choose1 sq u n = choose2 sq u n) ->
  forall quote_items,
    append_parts calc choose1 selected_parts quote_items
    = append_parts calc choose2 selected_parts quote_items.
Proof.
  intros H. induction selected_parts as [|s rest IH]; intros acc; simpl;
    [reflexivity|].
  rewrite H. destruct (append_procs calc (part_row s) _ (selected_procs s) acc);
    simpl; [apply IH | reflexivity].
Qed.

(** X5. On the same tables and the same selections whose procedure codes
    all have an entry, the loops of the two front ends have the same
    outcome: the same line items, or the same exception. *)
Theorem quote_items_front_ends_agree pdf mdf selected_parts :
  Forall (fun t => let '(_, _, proc, _) := t in has_procedure pdf proc)
    (selection_tuples app_quantity selected_parts) ->
  app_quote_items pdf mdf selected_parts = web_quote_items pdf mdf selected_parts.
Proof.
  intros H. unfold app_quote_items, web_quote_items, fill_quote_items.
  rewrite (@append_parts_choose_ext (web_calculate_cost pdf mdf)
             web_quantity app_quantity selected_parts web_quantity_app_quantity).
  apply append_parts_ext. eapply Forall_impl; [|exact H].
  intros [[[pn desc] proc] qty] Hhas.
  destruct (has_procedure_first Hhas) as (r & Hr).
  destruct (calculate_cost_first mdf pn qty Hr) as [-> ->]. reflexivity.
Qed.

Lemma quote_items_front_ends_agree_witness :
  app_quote_items Sample.priced_procedures_df [] Sample.selected_parts
  = web_quote_items Sample.priced_procedures_df [] Sample.selected_parts.
Proof.
  apply (@quote_items_front_ends_agree Sample.priced_procedures_df []
           Sample.selected_parts).
  simpl. repeat (apply Forall_cons; [apply has_procedure_by_mask; reflexivity|]).
  apply Forall_nil.
Defined.

(** X6. The two front ends choose the same quantity from the same answers;
    it is the entered quantity whenever the SeriesQty cell is blank or 0,
    whatever the answer to "use full series", and whenever the user declines
    the series. *)
Theorem quantity_front_ends_agree series_qty use_s ent :
  web_quantity series_qty use_s ent = app_quantity series_qty use_s ent
  /\ (series_qty = None \/ series_qty = Some 0%Z ->
      app_quantity series_qty use_s ent = ent)
  /\ (use_s = false -> app_quantity series_qty use_s ent = ent).
Proof.
  split; [apply web_quantity_app_quantity|]. split.
  - intros [-> | ->]; reflexivity.
  - intros ->. destruct series_qty as [s|]; simpl; [|reflexivity].
    now destruct (s =? 0)%Z.
Qed.

(** ** Totals *)

Lemma first_occurrences_from_all seen l k :
  In k (seen ++ first_occurrences_from seen l) <-> In k seen \/ In k l.
Proof.
  revert seen. induction l as [|x rest IH]; intros seen; simpl.
  - rewrite app_nil_r. tauto.
  - destruct (existsb (String.eqb x) seen) eqn:E.
    + rewrite IH. apply existsb_eqb_In in E.
      split; [tauto|]. intros [H|[<-|H]]; tauto.
    + change (x :: first_occurrences_from (seen ++ [x]) rest)
        with ([x] ++ first_occurrences_from (seen ++ [x]) rest).
      rewrite app_assoc, IH, in_app_iff. simpl. tauto.
Qed.

(** X7. [part_totals] has exactly one entry per part number of the line
    items: its keys are pairwise different, and a part number is a key
    exactly when some line item has it. *)
Theorem part_totals_keys items :
  NoDup (map fst (part_totals items))
  /\ (forall k, In k (map fst (part_totals items))
                <-> In k (map Item.PartNumber items)).
Proof.
  split.
  - apply (accumulate_NoDup PrimFloat.add 0%float Item.PartNumber Item.Total
             items [] 0%float). constructor.
  - intros k.
    rewrite (accumulate_keys PrimFloat.add 0%float Item.PartNumber Item.Total
               items [] 0%float : map fst (part_totals items) = _).
    rewrite first_occurrences_from_all. simpl. tauto.
Qed.

(** X8. Adding one line item at the end of the quote adds its total to the
    grand total and to the subtotal of its own part (starting from 0.0 for
    a part not yet met), and leaves every other subtotal as it was. *)
Theorem totals_after_append items i :
  grand_total (items ++ [i]) = (grand_total items + Item.Total i)%float
  /\ (forall k,
        lookup (part_totals (items ++ [i])) k
        = if (k =? Item.PartNumber i)%string
          then Some ((match lookup (part_totals items) (Item.PartNumber i) with
                      | Some s => s
                      | None => 0
                      end) + Item.Total i)%float
          else lookup (part_totals items) k).
Proof.
  unfold grand_total, part_totals, app_totals, accumulate.
  rewrite fold_left_app. simpl.
  destruct (fold_left _ items ([], 0%float)) as [d g]. simpl.
  split; [reflexivity|]. intros k. apply lookup_add_at.
Qed.

(** ** The menus of the terminal front end *)

Lemma getitem_numbered {A : Type} (options : list A) idx :
  Cli.in_menu options idx = true ->
  exists o, Cli.getitem options (idx - 1) = Cli.Done o /\ numbered options idx o.
Proof.
  unfold Cli.in_menu, Cli.getitem, numbered. intros H.
  apply andb_true_iff in H. destruct H as [H1 H2].
  apply Z.leb_le in H1, H2.
  destruct (Z.leb_spec 0 (idx - 1)) as [_|]; [|lia].
  destruct (nth_error options (Z.to_nat (idx - 1))) as [o|] eqn:E.
  - exists o. repeat split; [lia | lia].
  - apply nth_error_None in E. lia.
Qed.

(** X9. [prompt_choice] returns the option whose number is on the first line
    that holds a number of the menu; the lines before it were refused and
    the lines after it are left unread. It never raises [IndexError]: it
    stops only when the input ends, every line having been refused. *)
Theorem prompt_choice_answer {A : Type} ops (options : list A) stdin :
  match Cli.prompt_choice ops options stdin with
  | Cli.Done (o, rest) =>
      exists skipped line idx,
        stdin = skipped ++ line :: rest
        /\ Forall (refused ops options) skipped
        /\ Cli.int ops (Cli.strip ops line) = Some idx
        /\ numbered options idx o
  | Cli.Stop s => s = Cli.EOFError /\ Forall (refused ops options) stdin
  end.
Proof.
  induction stdin as [|line rest IH]; simpl; [split; constructor|].
  destruct (Cli.int ops (Cli.strip ops line)) as [idx|] eqn:Eint.
  - destruct (Cli.in_menu options idx) eqn:Emenu.
    + destruct (getitem_numbered options idx Emenu) as (o & -> & Ho). simpl.
      exists [], line, idx. repeat split; try assumption; try constructor;
        apply Ho.
    + destruct (Cli.prompt_choice ops options rest) as [[o rest']|s].
      * destruct IH as (skipped & l & i & -> & Hs & Hi & Ho).
        exists (line :: skipped), l, i. repeat split; try assumption;
          try apply Ho.
        constructor; [|exact Hs]. unfold refused. now rewrite Eint.
      * destruct IH as [-> Hs]. split; [reflexivity|].
        constructor; [|exact Hs]. unfold refused. now rewrite Eint.
  - destruct (Cli.prompt_choice ops options rest) as [[o rest']|s].
    + destruct IH as (skipped & l & i & -> & Hs & Hi & Ho).
      exists (line :: skipped), l, i. repeat split; try assumption;
        try apply Ho.
      constructor; [|exact Hs]. unfold refused. now rewrite Eint.
    + destruct IH as [-> Hs]. split; [reflexivity|].
      constructor; [|exact Hs]. unfold refused. now rewrite Eint.
Qed.

(** X10. With an empty menu no line can be accepted: [prompt_choice] reads
    the whole input and stops on [EOFError]. *)
Theorem prompt_choice_empty_menu {A : Type} ops stdin :
  Cli.prompt_choice ops (@nil A) stdin = Cli.Stop Cli.EOFError.
Proof.
  induction stdin as [|line rest IH]; simpl; [reflexivity|].
  destruct (Cli.int ops (Cli.strip ops line)) as [idx|]; [|exact IH].
  replace (Cli.in_menu (@nil A) idx) with false; [exact IH|].
  unfold Cli.in_menu. simpl. symmetry. apply andb_false_iff.
  destruct (Z.leb_spec 1 idx); [right; apply Z.leb_gt; lia | now left].
Qed.

Lemma getitems_numbered {A : Type} (options : list A) indices :
  forallb (Cli.in_menu options) indices = true ->
  exists os,
    Cli.getitems options indices = Cli.Done os
    /\ Forall2 (numbered options) indices os.
Proof.
  induction indices as [|idx rest IH]; simpl; intros H.
  - exists []. split; [reflexivity | constructor].
  - apply andb_true_iff in H. destruct H as [H1 H2].
    destruct (getitem_numbered options idx H1) as (o & -> & Ho).
    destruct (IH H2) as (os & -> & Hos). simpl.
    exists (o :: os). split; [reflexivity | now constructor].
Qed.

(** X11. [prompt_choice] with [multi=True] returns, for the first line whose
    numbers are all numbers of the menu, the options with these numbers, in
    the order typed and with repetitions kept; the lines before it were
    refused and the lines after it are left unread. It never raises
    [IndexError]: it stops only when the input ends. *)
Theorem prompt_choice_multi_answer {A : Type} ops (options : list A) stdin :
  match Cli.prompt_choice_multi ops options stdin with
  | Cli.Done (os, rest) =>
      exists skipped line indices,
        stdin = skipped ++ line :: rest
        /\ Forall (refused_multi ops options) skipped
        /\ Cli.ints ops (Cli.split_comma ops (Cli.strip ops line)) = Some indices
        /\ Forall2 (numbered options) indices os
  | Cli.Stop s => s = Cli.EOFError /\ Forall (refused_multi ops options) stdin
  end.
Proof.
  induction stdin as [|line rest IH]; simpl; [split; constructor|].
  destruct (Cli.ints ops (Cli.split_comma ops (Cli.strip ops line)))
    as [indices|] eqn:Eints.
  - destruct (forallb (Cli.in_menu options) indices) eqn:Emenu.
    + destruct (getitems_numbered options indices Emenu) as (os & -> & Hos).
      simpl. exists [], line, indices.
      repeat split; try assumption; constructor.
    + destruct (Cli.prompt_choice_multi ops options rest) as [[os rest']|s].
      * destruct IH as (skipped & l & ixs & -> & Hs & Hi & Ho).
        exists (line :: skipped), l, ixs. repeat split; try assumption.
        constructor; [|exact Hs]. unfold refused_multi. now rewrite Eints.
      * destruct IH as [-> Hs]. split; [reflexivity|].
        constructor; [|exact Hs]. unfold refused_multi. now rewrite Eints.
  - destruct (Cli.prompt_choice_multi ops options rest) as [[os rest']|s].
    + destruct IH as (skipped & l & ixs & -> & Hs & Hi & Ho).
      exists (line :: skipped), l, ixs. repeat split; try assumption.
      constructor; [|exact Hs]. unfold refused_multi. now rewrite Eints.
    + destruct IH as [-> Hs]. split; [reflexivity|].
      constructor; [|exact Hs]. unfold refused_multi. now rewrite Eints.
Qed.

Lemma ints_blank ops tokens :
  Forall (fun c => Cli.strip ops c = ""%string) tokens ->
  Cli.ints ops tokens = Some [].
Proof.
  induction 1 as [|c rest Hc _ IH]; simpl; [reflexivity|].
  now rewrite Hc.
Qed.

(** X12. A line with nothing between its commas is accepted by
    [prompt_choice] with [multi=True], whatever the menu, and selects
    nothing: the empty list is returned at once. *)
Theorem prompt_choice_multi_blank {A : Type} ops (options : list A) line rest :
  Forall (fun c => Cli.strip ops c = ""%string)
    (Cli.split_comma ops (Cli.strip ops line)) ->
  Cli.prompt_choice_multi ops options (line :: rest) = Cli.Done ([], rest).
Proof.
  intros H. simpl. now rewrite (ints_blank ops H).
Qed.

Lemma prompt_choice_multi_blank_witness :
  Cli.prompt_choice_multi Sample.ops ["HPT"; "LPT"]%string [" , "; "1"]%string
  = Cli.Done ([], ["1"%string]).
Proof.
  apply (@prompt_choice_multi_blank string Sample.ops ["HPT"; "LPT"]%string
           " , "%string ["1"%string]).
  repeat constructor.
Defined.

(** ** The quantity typed at the terminal *)

(** X13. [read_quantity] asks "use full series?" only when SeriesQty is
    present and not 0. After an answer that is "y" once stripped and
    lowered, it returns the series quantity and reads nothing more; after
    any other answer, and when the question is not asked, it returns the
    integer on the next line. The quantity is in each case what
    [app_quantity] gives for these answers. It stops on [EOFError] when the
    line it needs is missing, and on the [ValueError] of [int] when the
    quantity line is refused: that line is not asked again. *)
Theorem read_quantity_answers ops series_qty stdin :
  match Cli.read_quantity ops series_qty stdin with
  | Cli.Done (quantity, rest) =>
      (exists s answer,
          series_qty = Some s /\ s <> 0%Z
          /\ Cli.lower ops (Cli.strip ops answer) = "y"%string
          /\ stdin = answer :: rest
          /\ quantity = s
          /\ forall ent, app_quantity series_qty true ent = quantity)
      \/ (exists s answer line,
             series_qty = Some s /\ s <> 0%Z
             /\ Cli.lower ops (Cli.strip ops answer) <> "y"%string
             /\ stdin = answer :: line :: rest
             /\ Cli.int ops line = Some quantity
             /\ app_quantity series_qty false quantity = quantity)
      \/ ((series_qty = None \/ series_qty = Some 0%Z)
          /\ exists line,
               stdin = line :: rest
               /\ Cli.int ops line = Some quantity
               /\ forall use_s, app_quantity series_qty use_s quantity = quantity)
  | Cli.Stop stop =>
      (stop = Cli.EOFError
       /\ (stdin = []
           \/ exists s answer,
                series_qty = Some s /\ s <> 0%Z
                /\ Cli.lower ops (Cli.strip ops answer) <> "y"%string
                /\ stdin = [answer]))
      \/ (exists line rest,
             Cli.int ops line = None
             /\ stop = Cli.InvalidLiteral line
             /\ ((exists s answer,
                     series_qty = Some s /\ s <> 0%Z
                     /\ Cli.lower ops (Cli.strip ops answer) <> "y"%string
                     /\ stdin = answer :: line :: rest)
                 \/ ((series_qty = None \/ series_qty = Some 0%Z)
                     /\ stdin = line :: rest)))
  end.
Proof.
  assert (Hint : forall stdin',
             match Cli.read_int ops stdin' with
             | Cli.Done (n, rest) =>
                 exists line, stdin' = line :: rest /\ Cli.int ops line = Some n
             | Cli.Stop stop =>
                 (stdin' = [] /\ stop = Cli.EOFError)
                 \/ exists line rest,
                      stdin' = line :: rest /\ Cli.int ops line = None
                      /\ stop = Cli.InvalidLiteral line
             end).
  { intros [|line rest]; unfold Cli.read_int, Cli.bind, Cli.input;
      [now left|].
    destruct (Cli.int ops line) as [n|] eqn:E; simpl; [eauto|].
    right. exists line, rest. auto. }
  assert (Hplain : series_qty = None \/ series_qty = Some 0%Z ->
                   Cli.read_quantity ops series_qty stdin = Cli.read_int ops stdin).
  { intros [-> | ->]; reflexivity. }
  assert (Hany : series_qty = None \/ series_qty = Some 0%Z ->
                 forall use_s ent, app_quantity series_qty use_s ent = ent).
  { intros [-> | ->] use_s ent; reflexivity. }
  assert (Hcase : series_qty = None \/ series_qty = Some 0%Z
                  \/ exists s, series_qty = Some s /\ s <> 0%Z).
  { destruct series_qty as [s|]; [|now left].
    destruct (Z.eq_dec s 0) as [-> | Hs]; [right; now left | right; right; eauto]. }
  destruct Hcase as [Hn | [Hz | (s & -> & Hs)]].
  - rewrite (Hplain (or_introl Hn)). specialize (Hint stdin).
    destruct (Cli.read_int ops stdin) as [[n rest]|stop].
    + destruct Hint as (line & -> & Hline). right. right.
      split; [now left|]. exists line. repeat split; auto;
        intros use_s; apply (Hany (or_introl Hn)).
    + destruct Hint as [[-> ->] | (line & rest & -> & Hline & ->)].
      * left. split; [reflexivity | now left].
      * right. exists line, rest. repeat split; auto.
  - rewrite (Hplain (or_intror Hz)). specialize (Hint stdin).
    destruct (Cli.read_int ops stdin) as [[n rest]|stop].
    + destruct Hint as (line & -> & Hline). right. right.
      split; [now right|]. exists line. repeat split; auto;
        intros use_s; apply (Hany (or_intror Hz)).
    + destruct Hint as [[-> ->] | (line & rest & -> & Hline & ->)].
      * left. split; [reflexivity | now left].
      * right. exists line, rest. repeat split; auto.
  - assert (Es : (s =? 0)%Z = false) by now apply Z.eqb_neq.
    unfold Cli.read_quantity. rewrite Es. cbn [negb].
    destruct stdin as [|answer rest]; unfold Cli.bind, Cli.input;
      [left; split; [reflexivity | now left]|].
    destruct (String.eqb_spec (Cli.lower ops (Cli.strip ops answer)) "y") as [Ey | Ey].
    + unfold Cli.ret. left. exists s, answer. repeat split; auto;
        intros ent; simpl; now rewrite Es.
    + specialize (Hint rest).
      destruct (Cli.read_int ops rest) as [[n rest']|stop].
      * destruct Hint as (line & -> & Hline). right. left.
        exists s, answer, line. repeat split; auto;
          simpl; now rewrite Es.
      * destruct Hint as [[-> ->] | (line & rest' & -> & Hline & ->)].
        -- left. split; [reflexivity|]. right. exists s, answer. auto.
        -- right. exists line, rest'. repeat split; auto.
           left. exists s, answer. auto.
Qed.

(** ** Row labels *)

Lemma in_combine_seq {A : Type} (rows : list A) :
  forall a l r,
    In (l, r) (combine (seq a (List.length rows)) rows)
    <-> (a <= l)%nat /\ nth_error rows (l - a) = Some r.
Proof.
  induction rows as [|x rows IH]; intros a l r; simpl.
  - split; [tauto|]. intros [_ H]. now destruct (l - a)%nat.
  - rewrite IH. split.
    + intros [E | [Hle Hn]].
      * injection E as <- <-. rewrite Nat.sub_diag. split; [lia | reflexivity].
      * split; [lia|]. replace (l - a)%nat with (S (l - S a)) by lia. exact Hn.
    + intros [Hle Hn]. destruct (Nat.eq_dec a l) as [<- | Hne].
      * rewrite Nat.sub_diag in Hn. injection Hn as <-. now left.
      * right. split; [lia|].
        replace (l - a)%nat with (S (l - S a)) in Hn by lia. exact Hn.
Qed.

Lemma read_csv_labels {A : Type} (rows : list A) :
  map fst (Cli.read_csv rows) = seq 0 (List.length rows).
Proof.
  unfold Cli.read_csv. generalize 0%nat.
  induction rows as [|x rows IH]; intros a; simpl; [reflexivity|].
  now rewrite IH.
Qed.

Lemma NoDup_labels_filter {A : Type} (f : nat * A -> bool) (df : Cli.frame A) :
  NoDup (map fst df) -> NoDup (map fst (filter f df)).
Proof.
  induction df as [|x df IH]; simpl; intros H; [constructor|].
  inversion H as [|y ys Hx Hnd]; subst.
  destruct (f x); simpl; [|now apply IH].
  constructor; [|now apply IH].
  intros Hin. apply Hx. apply in_map_iff in Hin.
  destruct Hin as (z & Ez & Hz). apply filter_In in Hz.
  apply in_map_iff. exists z. tauto.
Qed.

Lemma find_label {A : Type} (df : Cli.frame A) l r :
  NoDup (map fst df) -> In (l, r) df ->
  find (fun x => (fst x =? l)%nat) df = Some (l, r).
Proof.
  induction df as [|[l0 r0] df IH]; intros Hnd Hin; [destruct Hin|].
  simpl in *. inversion Hnd as [|y ys Hx Hnd']; subst.
  destruct Hin as [E | Hin].
  - injection E as -> ->. now rewrite Nat.eqb_refl.
  - destruct (Nat.eqb_spec l0 l) as [-> | _]; [|now apply IH].
    exfalso. apply Hx. change l with (fst (l, r)). now apply in_map.
Qed.

(** Row labels survive a selection: for a label of [df[mask]], with
    [df] as read from the file, [df[mask].loc[label]] is the row at that
    position of the file, and it satisfies the mask; no [KeyError] is
    raised. *)
Lemma loc_selected {A : Type} (rows : list A) (mask : A -> bool) label :
  In label (Cli.index (Cli.select mask (Cli.read_csv rows))) ->
  exists row,
    Cli.loc (Cli.select mask (Cli.read_csv rows)) label = Cli.Done row
    /\ nth_error rows label = Some row
    /\ mask row = true.
Proof.
  unfold Cli.index, Cli.select, Cli.loc. intros H.
  apply in_map_iff in H. destruct H as ([l row] & E & Hin). simpl in E. subst l.
  exists row. rewrite (@find_label A _ label row).
  - apply filter_In in Hin. destruct Hin as [Hin Hmask].
    apply in_combine_seq in Hin. rewrite Nat.sub_0_r in Hin. tauto.
  - apply NoDup_labels_filter. rewrite read_csv_labels. apply seq_NoDup.
  - exact Hin.
Qed.

(** ** The terminal session *)

Lemma prompt_choice_member {A : Type} ops (options : list A) stdin :
  match Cli.prompt_choice ops options stdin with
  | Cli.Done (o, _) => In o options
  | Cli.Stop s => s = Cli.EOFError
  end.
Proof.
  induction stdin as [|line rest IH]; simpl; [reflexivity|].
  destruct (Cli.int ops (Cli.strip ops line)) as [idx|]; [|exact IH].
  destruct (Cli.in_menu options idx) eqn:E; [|exact IH].
  destruct (getitem_numbered options idx E) as (o & -> & _ & Ho). simpl.
  eapply nth_error_In, Ho.
Qed.

Lemma prompt_choice_multi_members {A : Type} ops (options : list A) stdin :
  match Cli.prompt_choice_multi ops options stdin with
  | Cli.Done (os, _) => Forall (fun o => In o options) os
  | Cli.Stop s => s = Cli.EOFError
  end.
Proof.
  induction stdin as [|line rest IH]; simpl; [reflexivity|].
  destruct (Cli.ints ops (Cli.split_comma ops (Cli.strip ops line)))
    as [indices|]; [|exact IH].
  destruct (forallb (Cli.in_menu options) indices) eqn:E; [|exact IH].
  destruct (getitems_numbered options indices E) as (os & -> & Hos). simpl.
  clear E. induction Hos as [|idx o indices os (_ & Ho) _ IHos]; constructor.
  - eapply nth_error_In, Ho.
  - exact IHos.
Qed.

Lemma read_quantity_stops ops series_qty stdin :
  match Cli.read_quantity ops series_qty stdin with
  | Cli.Done _ => True
  | Cli.Stop s => session_stop s
  end.
Proof.
  assert (Hint : forall stdin',
             match Cli.read_int ops stdin' with
             | Cli.Done _ => True
             | Cli.Stop s => session_stop s
             end).
  { intros [|line rest]; unfold Cli.read_int, Cli.bind, Cli.input;
      [now left|].
    destruct (Cli.int ops line); simpl; [trivial|].
    right. left. eauto. }
  destruct series_qty as [s|]; simpl; [|apply Hint].
  destruct (s =? 0)%Z; simpl; [apply Hint|].
  destruct stdin as [|answer rest]; unfold Cli.bind, Cli.input; [now left|].
  destruct (Cli.lower ops (Cli.strip ops answer) =? "y")%string;
    [exact I | apply Hint].
Qed.

Lemma app_quantity_declined series_qty ent :
  app_quantity series_qty false ent = ent.
Proof.
  destruct series_qty as [s|]; simpl; [|reflexivity]. now destruct (s =? 0)%Z.
Qed.

Lemma price_procs_append_procs pdf mdf row qty pidxs :
  Forall (fun i => In i (Cli.index (Cli.read_csv pdf))) pidxs ->
  exists codes,
    Forall (has_procedure pdf) codes
    /\ forall quote_items,
         Cli.price_procs pdf mdf row qty pidxs quote_items
         = Cli.of_outcome
             (append_procs (app_calculate_cost pdf mdf) row qty codes quote_items).
Proof.
  induction 1 as [|pidx rest Hp _ (codes & Hcodes & IH)].
  - exists []. split; [constructor | reflexivity].
  - assert (Hsel : In pidx (Cli.index (Cli.select (fun _ => true) (Cli.read_csv pdf)))).
    { unfold Cli.select. now rewrite filter_true. }
    destruct (loc_selected _ _ _ Hsel) as (proc_row & Hloc & Hnth & _).
    unfold Cli.select in Hloc. rewrite filter_true in Hloc.
    exists (Procedures.ProcedureCode proc_row :: codes). split.
    + constructor; [|exact Hcodes]. exists proc_row.
      split; [eapply nth_error_In, Hnth | reflexivity].
    + intros acc. simpl. rewrite Hloc. simpl.
      destruct (app_calculate_cost pdf mdf (Parts.PartNumber row)
                  (Procedures.ProcedureCode proc_row) qty)
        as [[[base_cost multiplier] total]|e]; simpl; [apply IH | reflexivity].
Qed.

Lemma append_procs_present_stop pdf mdf row qty codes quote_items e :
  Forall (has_procedure pdf) codes ->
  append_procs (app_calculate_cost pdf mdf) row qty codes quote_items = Raise e ->
  e = OverflowError.
Proof.
  intros Hcodes H.
  pose proof (append_procs_outcome (app_calculate_cost pdf mdf) row qty codes
                quote_items) as Ho.
  rewrite H in Ho. apply first_failure_Some in Ho.
  destruct Ho as (before & [[[pn desc] proc] q] & after & E & _ & Ht).
  assert (Hin : In (pn, desc, proc, q)
                  (map (fun proc => (Parts.PartNumber row, Parts.Description row,
                                     proc, qty)) codes)).
  { rewrite E. apply in_or_app. right. now left. }
  apply in_map_iff in Hin. destruct Hin as (c & Ec & Hc).
  injection Ec as <- _ <- <-.
  rewrite Forall_forall in Hcodes. specialize (Hcodes c Hc).
  destruct (calculate_cost_present mdf (Parts.PartNumber row) qty Hcodes)
    as (r & m & _ & _ & Hok & Hov).
  simpl in Ht.
  destruct (float_of_int_cases qty) as [(qf & Hq) | Hq].
  - destruct (Hok qf Hq) as [Ha _]. rewrite Ha in Ht. discriminate Ht.
  - destruct (Hov Hq) as [Ha _]. rewrite Ha in Ht. now injection Ht as <-.
Qed.

Lemma quote_parts_outcome ops parts_df pdf mdf engine assembly labels :
  let assembly_parts :=
    Cli.select (Cli.part_mask engine assembly) (Cli.read_csv parts_df) in
  Forall (fun l => In l (Cli.index assembly_parts)) labels ->
  forall quote_items stdin,
    match Cli.quote_parts ops pdf mdf assembly_parts labels quote_items stdin with
    | Cli.Done (items, _) =>
        exists selected_parts,
          Forall (chosen_from parts_df pdf engine assembly) selected_parts
          /\ append_parts (app_calculate_cost pdf mdf) app_quantity selected_parts
               quote_items = Return items
    | Cli.Stop s => session_stop s
    end.
Proof.
  intros assembly_parts.
  induction 1 as [|idx rest Hidx _ IH]; intros acc stdin.
  - simpl. exists []. split; [constructor | reflexivity].
  - cbn [Cli.quote_parts]. unfold Cli.bind at 1, Cli.lift at 1.
    destruct (loc_selected _ _ _ Hidx) as (row & Hloc & Hnth & Hmask).
    fold assembly_parts in Hloc. rewrite Hloc.
    unfold Cli.bind at 1.
    pose proof (read_quantity_stops ops (Parts.SeriesQty row) stdin) as Hq.
    destruct (Cli.read_quantity ops (Parts.SeriesQty row) stdin)
      as [[quantity stdin1]|s]; [clear Hq | exact Hq].
    unfold Cli.bind at 1.
    pose proof (prompt_choice_multi_members ops
                  (Cli.index (Cli.read_csv pdf)) stdin1) as Hp.
    destruct (Cli.prompt_choice_multi ops (Cli.index (Cli.read_csv pdf)) stdin1)
      as [[pidxs stdin2]|s]; [|left; exact Hp].
    destruct (price_procs_append_procs pdf mdf row quantity Hp)
      as (codes & Hcodes & Hprice).
    unfold Cli.bind at 1, Cli.lift at 1. rewrite Hprice.
    destruct (append_procs (app_calculate_cost pdf mdf) row quantity codes acc)
      as [mid|e] eqn:Emid; simpl.
    + specialize (IH mid stdin2).
      destruct (Cli.quote_parts ops pdf mdf assembly_parts rest mid stdin2)
        as [[items stdin3]|s]; [|exact IH].
      destruct IH as (sels & Hsels & Happ).
      exists (Selection row false quantity codes :: sels). split.
      * constructor; [|exact Hsels].
        apply andb_true_iff in Hmask. destruct Hmask as [He Ha].
        apply String.eqb_eq in He, Ha.
        repeat split; try assumption. eapply nth_error_In, Hnth.
      * simpl. rewrite app_quantity_declined, Emid. exact Happ.
    + right. right. right. f_equal.
      eapply append_procs_present_stop; eassumption.
Qed.

(** X14. A terminal session that runs to its end has filled [quote_items]
    as the quote loop does for some selections, all made of a part of the
    chosen engine model and assembly and of procedure codes of the
    Procedure table. A session that stops does so on the end of the input,
    on [SystemExit], on a quantity that [int] refuses or on
    [OverflowError]: the "not found" error of [calculate_cost], [KeyError]
    and [IndexError] cannot occur. *)
Theorem session_outcome ops engine_models_df assemblies_df parts_df pdf mdf stdin :
  match Cli.session ops engine_models_df assemblies_df parts_df pdf mdf stdin with
  | Cli.Done (items, _) =>
      exists engine assembly selected_parts,
        In engine engine_models_df
        /\ In (Assemblies.Row engine assembly) assemblies_df
        /\ Forall (chosen_from parts_df pdf engine assembly) selected_parts
        /\ app_quote_items pdf mdf selected_parts = Return items
  | Cli.Stop s => session_stop s
  end.
Proof.
  unfold Cli.session, Cli.bind at 1.
  pose proof (prompt_choice_member ops engine_models_df stdin) as He.
  destruct (Cli.prompt_choice ops engine_models_df stdin)
    as [[engine stdin1]|s]; [|left; exact He].
  destruct (filter (Cli.engine_mask engine) assemblies_df) as [|r0 rs] eqn:Ef;
    cbn [Py.empty]; [right; right; left; unfold Cli.lift; eauto|].
  rewrite <- Ef. unfold Cli.bind at 1.
  pose proof (prompt_choice_member ops
                (first_occurrences
                   (map Assemblies.AssemblyCode
                      (filter (Cli.engine_mask engine) assemblies_df))) stdin1) as Ha.
  destruct (Cli.prompt_choice ops _ stdin1) as [[assembly stdin2]|s];
    [|left; exact Ha].
  destruct (Cli.select (Cli.part_mask engine assembly) (Cli.read_csv parts_df))
    as [|p0 ps] eqn:Ep; cbn [Py.empty]; [right; right; left; unfold Cli.lift; eauto|].
  rewrite <- Ep. unfold Cli.bind at 1.
  pose proof (prompt_choice_multi_members ops
                (Cli.index (Cli.select (Cli.part_mask engine assembly)
                              (Cli.read_csv parts_df))) stdin2) as Hl.
  destruct (Cli.prompt_choice_multi ops _ stdin2) as [[labels stdin3]|s];
    [|left; exact Hl].
  pose proof (quote_parts_outcome ops parts_df pdf mdf engine assembly Hl
                [] stdin3) as Hq.
  destruct (Cli.quote_parts ops pdf mdf _ labels [] stdin3)
    as [[items stdin4]|s]; [|exact Hq].
  destruct Hq as (sels & Hsels & Happ).
  exists engine, assembly, sels. repeat split; try assumption.
  apply first_occurrences_from_In in Ha. apply in_map_iff in Ha.
  destruct Ha as ([e a] & Ea & Hin). simpl in Ea. subst a.
  apply filter_In in Hin. destruct Hin as [Hin Hmask].
  unfold Cli.engine_mask in Hmask. simpl in Hmask.
  apply String.eqb_eq in Hmask. now subst e.
Qed.

Lemma session_example :
  Cli.session Sample.ops Sample.engine_models_df Sample.assemblies_df Sample.parts_df
    Sample.procedures_df Sample.multipliers_df
    ["0"; " 1 "; "x"; "1"; "1, 2"; "3"; "1"; " Y "; "2"; "unread"]%string
  = Cli.Done
      ([ Item.Make "P1" "Seal" "R100" 3 200%float 1.5%float 900%float;
         Item.Make "P2" "Blade set" "R200" 12 75%float 2%float 1800%float ],
       ["unread"%string]).
Proof. vm_compute. reflexivity. Qed.

(** X15. When the chosen engine model has no row in the Assemblies table,
    the session stops on [SystemExit] with "No assemblies found for" and
    the engine model, whatever the rest of the input; when the chosen
    assembly has no row in the Parts table, it stops with "No parts found
    for" and both names. *)
Theorem session_exits ops engine_models_df assemblies_df parts_df pdf mdf
    stdin engine rest :
  Cli.prompt_choice ops engine_models_df stdin = Cli.Done (engine, rest) ->
  (Forall (fun r => Assemblies.EngineModel r <> engine) assemblies_df ->
   Cli.session ops engine_models_df assemblies_df parts_df pdf mdf stdin
   = Cli.Stop (Cli.SystemExit ("No assemblies found for " ++ engine)))
  /\ (forall assembly rest',
        In (Assemblies.Row engine assembly) assemblies_df ->
        Cli.prompt_choice ops
          (first_occurrences
             (map Assemblies.AssemblyCode
                (filter (Cli.engine_mask engine) assemblies_df))) rest
        = Cli.Done (assembly, rest') ->
        Forall (fun r => ~ (Parts.EngineModel r = engine
                            /\ Parts.AssemblyCode r = assembly)) parts_df ->
        Cli.session ops engine_models_df assemblies_df parts_df pdf mdf stdin
        = Cli.Stop (Cli.SystemExit
                      ("No parts found for " ++ engine ++ " - " ++ assembly))).
Proof.
  intros He. split.
  - intros Hnone. unfold Cli.session, Cli.bind at 1. rewrite He.
    rewrite (@filter_none _ (Cli.engine_mask engine)
               (fun r => Assemblies.EngineModel r = engine)
               (fun r => String.eqb_eq (Assemblies.EngineModel r) engine)
               assemblies_df Hnone).
    reflexivity.
  - intros assembly rest' Hin Ha Hnone.
    unfold Cli.session, Cli.bind at 1. rewrite He.
    destruct (filter (Cli.engine_mask engine) assemblies_df) as [|r0 rs] eqn:Ef.
    + exfalso.
      assert (Hf : In (Assemblies.Row engine assembly)
                     (filter (Cli.engine_mask engine) assemblies_df)).
      { apply filter_In. split; [exact Hin | apply String.eqb_refl]. }
      rewrite Ef in Hf. destruct Hf.
    + cbn [Py.empty]. cbv zeta. unfold Cli.bind at 1. rewrite Ha.
      unfold Cli.select.
      replace (filter (fun r => Cli.part_mask engine assembly (snd r))
                 (Cli.read_csv parts_df)) with (@nil (nat * Parts.row)); [reflexivity|].
      symmetry.
      apply (@filter_none _ (fun r => Cli.part_mask engine assembly (snd r))
               (fun r => Parts.EngineModel (snd r) = engine
                         /\ Parts.AssemblyCode (snd r) = assembly)).
      * intros r. unfold Cli.part_mask.
        now rewrite andb_true_iff, !String.eqb_eq.
      * apply Forall_forall. intros [l r] Hr. simpl.
        apply in_combine_seq in Hr. destruct Hr as [_ Hr].
        apply nth_error_In in Hr.
        rewrite Forall_forall in Hnone. exact (Hnone r Hr).
Qed.

Lemma session_exits_witness :
  Cli.session Sample.ops Sample.engine_models_df Sample.assemblies_df Sample.parts_df
    Sample.procedures_df Sample.multipliers_df ["2"; "1"]%string
  = Cli.Stop (Cli.SystemExit "No assemblies found for V2500").
Proof.
  apply (proj1 (@session_exits Sample.ops Sample.engine_models_df
                  Sample.assemblies_df Sample.parts_df Sample.procedures_df
                  Sample.multipliers_df ["2"; "1"]%string "V2500"%string
                  ["1"%string] eq_refl)).
  repeat constructor; discriminate.
Defined.

(** ** The web form *)

Lemma form_procs_append_procs pdf mdf row qty procs :
  forall quote_items,
    Web.form_procs pdf mdf (Parts.PartNumber row) (Parts.Description row) qty procs
      quote_items
    = append_procs (web_calculate_cost pdf mdf) row qty procs quote_items.
Proof.
  induction procs as [|proc rest IH]; intros acc; simpl; [reflexivity|].
  destruct (web_calculate_cost pdf mdf (Parts.PartNumber row) proc qty)
    as [[[b m] t]|e]; simpl; [apply IH | reflexivity].
Qed.

(** X16. When every part number chosen in the web form is a part number of
    the options (as the multiselect has it), the form fills [quote_items]
    as the quote loop does for the selections the choices stand for, each
    part number standing for the first row of the options that has it:
    [.iloc[0]] never fails, and a second row with the same part number is
    never priced. *)
Theorem form_parts_stand_for pdf mdf part_options choices :
  Forall (fun c => In (Web.part_number c) (map Parts.PartNumber part_options))
    choices ->
  exists selected_parts,
    Forall2 (stands_for part_options) choices selected_parts
    /\ forall quote_items,
         Web.form_parts pdf mdf part_options choices quote_items
         = append_parts (web_calculate_cost pdf mdf) web_quantity selected_parts
             quote_items.
Proof.
  induction 1 as [|c rest Hc _ (sels & Hsels & IH)].
  - exists []. split; [constructor | reflexivity].
  - apply in_map_iff in Hc. destruct Hc as (x & Ex & Hx).
    assert (Hfirst : exists row,
               first_such (fun r => Parts.PartNumber r = Web.part_number c)
                 part_options row).
    { clear - Ex Hx. induction part_options as [|y l IHl]; [destruct Hx|].
      destruct (String.eqb_spec (Parts.PartNumber y) (Web.part_number c)) as [E|E].
      - exists y, [], l. repeat split; [constructor | exact E].
      - destruct Hx as [-> | Hx]; [contradiction|].
        destruct (IHl Hx) as (row & before & after & -> & Hb & Hr).
        exists row, (y :: before), after. repeat split; auto. }
    destruct Hfirst as (row & Hrow).
    exists (Selection row (Web.use_series c) (Web.number c) (Web.procs c) :: sels).
    split; [constructor; [repeat split; assumption | exact Hsels]|].
    intros acc. simpl. unfold Web.part_row_of.
    destruct Hrow as (before & after & -> & Hb & Hr).
    rewrite (@filter_first _ (fun r => (Parts.PartNumber r =? Web.part_number c)%string)
               (fun r => Parts.PartNumber r = Web.part_number c)
               (fun r => String.eqb_eq (Parts.PartNumber r) (Web.part_number c))
               before row after Hb Hr).
    simpl. rewrite <- Hr at 1. rewrite form_procs_append_procs.
    destruct (append_procs (web_calculate_cost pdf mdf) row _ (Web.procs c) acc);
      simpl; [apply IH | reflexivity].
Qed.

Lemma form_parts_stand_for_witness :
  exists selected_parts,
    Forall2 (stands_for Sample.parts_df)
      [Web.Choice "P2" true 1 ["R200"%string]] selected_parts
    /\ forall quote_items,
         Web.form_parts Sample.procedures_df Sample.multipliers_df Sample.parts_df
           [Web.Choice "P2" true 1 ["R200"%string]] quote_items
         = append_parts
             (web_calculate_cost Sample.procedures_df Sample.multipliers_df)
             web_quantity selected_parts quote_items.
Proof.
  apply (@form_parts_stand_for Sample.procedures_df Sample.multipliers_df
           Sample.parts_df [Web.Choice "P2" true 1 ["R200"%string]]).
  apply Forall_cons; [|apply Forall_nil].
  right. right. left. reflexivity.
Defined.

(** X17. In the web form the number input is at least 1; the quantity used
    is then at least 1 too, unless the SeriesQty of the part is negative. *)
Theorem web_quantity_positive series_qty use_s ent :
  (1 <= ent)%Z ->
  (forall s, series_qty = Some s -> (0 <= s)%Z) ->
  (1 <= web_quantity series_qty use_s ent)%Z.
Proof.
  intros Hent Hs. destruct series_qty as [s|]; simpl; [|exact Hent].
  specialize (Hs s eq_refl).
  destruct use_s; simpl; [|exact Hent].
  destruct (Z.eqb_spec s 0); simpl; [exact Hent | lia].
Qed.

Lemma web_quantity_positive_witness :
  (1 <= web_quantity (Some 12%Z) true 1)%Z.
Proof.
  apply (@web_quantity_positive (Some 12%Z) true 1%Z).
  - lia.
  - intros s E. injection E as <-. lia.
Defined.
